(** * delgoden/wallet: the [Service] ledger of [pkg/wallet/service.go]

    A shallow embedding of the wallet service and of its two text dump
    formats, followed by the properties of the specification.

    Conventions of the embedding.
    - [int64] and [types.Money] values are integers of [Z]; every
      arithmetic operation of the source is followed by its 64-bit
      two's-complement wrap-around ([wrap64]).
    - Go strings are [string]; [types.Phone], [types.PaymentCategory] and
      [types.PaymentStatus] are string types in the source and stay strings.
    - The service holds slices of pointers.  Every pointer stored in a slice
      is created by the [append] that stores it, so no two entries alias;
      a mutation through the pointer found by a linear scan is the update of
      the first matching entry ([update_first]).
    - A method is a function from the state before the call to an outcome
      and the state after it.  An outcome is a value, an [error] value
      returned by the method, or a run-time panic.
    - [uuid.New().String()] is an input of the methods that draw an
      identifier (argument [uid]).
    - [int] has 64 bits, so [strconv.Atoi] accepts the [int64] range.
    - The file system is reduced to the contents of the files the service
      reads and writes: [None] is a file that cannot be opened.  Writes and
      reads of an opened file do not fail. *)

From Stdlib Require Import ZArith Lia List Bool Ascii String Sorted.
Import ListNotations.
Local Open Scope string_scope.
Local Open Scope list_scope.
Local Open Scope Z_scope.

(** ** Machine integers *)

Definition min_int64 : Z := - 2 ^ 63.
Definition max_int64 : Z := 2 ^ 63 - 1.

Definition int64 (z : Z) : Prop := min_int64 <= z <= max_int64.

(** Two's-complement reduction of an integer to 64 bits. *)
Definition wrap64 (z : Z) : Z := (z + 2 ^ 63) mod 2 ^ 64 - 2 ^ 63.

Definition add64 (x y : Z) : Z := wrap64 (x + y).
Definition sub64 (x y : Z) : Z := wrap64 (x - y).

(** ** pkg/types *)

Definition Money := Z.
Definition Phone := string.
Definition PaymentCategory := string.
Definition PaymentStatus := string.

Definition PaymentStatusOK : PaymentStatus := "OK".
Definition PaymentStatusFail : PaymentStatus := "FAIL".
Definition PaymentStatusInProgress : PaymentStatus := "INPROGRESS".

Module Account.
Record t : Type := mk { ID : Z; Phone : Phone; Balance : Money }.
Definition with_Balance (b : Money) (a : t) : t :=
  mk (ID a) (Phone a) b.
End Account.

Module Payment.
Record t : Type := mk
  { ID : string; AccountID : Z; Amount : Money;
    Category : PaymentCategory; Status : PaymentStatus }.
Definition with_Status (st : PaymentStatus) (p : t) : t :=
  mk (ID p) (AccountID p) (Amount p) (Category p) st.
End Payment.

Module Favorite.
Record t : Type := mk
  { ID : string; AccountID : Z; Name : string; Amount : Money;
    Category : PaymentCategory }.
End Favorite.

(** ** Errors, panics and outcomes *)

Inductive error : Type :=
| ErrPhoneRegistered
| ErrAmountMustBePositive
| ErrAccountNotFound
| ErrNotEnoughBalance
| ErrPaymentNotFound
| ErrFavoriteNotFound
| ErrSyntax (num : string)   (* strconv.NumError wrapping strconv.ErrSyntax *)
| ErrRange (num : string)    (* strconv.NumError wrapping strconv.ErrRange *)
| ErrOpen.                   (* the error of a failed os.Open *)

Inductive panic : Type :=
| NilDereference
| IndexOutOfRange (index length : nat).

Inductive outcome (A : Type) : Type :=
| Ok (a : A)
| Err (e : error)
| Panic (p : panic).
Arguments Ok {A} a.
Arguments Err {A} e.
Arguments Panic {A} p.

(** ** The service *)

Record Service : Type := mkService
  { nextAccountID : Z;
    accounts : list Account.t;
    payments : list Payment.t;
    favorites : list Favorite.t }.

(** The zero value [&Service{}]. *)
Definition fresh : Service := mkService 0 [] [] [].

Definition with_accounts (l : list Account.t) (s : Service) : Service :=
  mkService (nextAccountID s) l (payments s) (favorites s).
Definition with_payments (l : list Payment.t) (s : Service) : Service :=
  mkService (nextAccountID s) (accounts s) l (favorites s).
Definition with_favorites (l : list Favorite.t) (s : Service) : Service :=
  mkService (nextAccountID s) (accounts s) (payments s) l.
Definition with_nextAccountID (n : Z) (s : Service) : Service :=
  mkService n (accounts s) (payments s) (favorites s).

(** Mutation through the pointer that a [for ... { if hit { p = x; break } }]
    scan leaves in [p]: the first entry that satisfies [hit] is replaced. *)
Fixpoint update_first {A : Type} (hit : A -> bool) (upd : A -> A)
    (l : list A) : list A :=
  match l with
  | [] => []
  | x :: r => if hit x then upd x :: r else x :: update_first hit upd r
  end.

Definition is_account (accountID : Z) (a : Account.t) : bool :=
  Account.ID a =? accountID.
Definition is_payment (paymentID : string) (p : Payment.t) : bool :=
  String.eqb (Payment.ID p) paymentID.
Definition is_favorite (favoriteID : string) (f : Favorite.t) : bool :=
  String.eqb (Favorite.ID f) favoriteID.
Definition has_phone (phone : Phone) (a : Account.t) : bool :=
  String.eqb (Account.Phone a) phone.

(** [RegisterAccount] *)
Definition RegisterAccount (phone : Phone) (s : Service)
    : outcome Account.t * Service :=
  if existsb (has_phone phone) (accounts s) then (Err ErrPhoneRegistered, s)
  else
    let next := add64 (nextAccountID s) 1 in
    let account := Account.mk next phone 0 in
    (Ok account,
     with_accounts (accounts s ++ [account]) (with_nextAccountID next s)).

(** [Deposit] *)
Definition Deposit (accountID : Z) (amount : Money) (s : Service)
    : outcome unit * Service :=
  if amount <=? 0 then (Err ErrAmountMustBePositive, s)
  else
    match find (is_account accountID) (accounts s) with
    | None => (Err ErrAccountNotFound, s)
    | Some _ =>
      (Ok tt,
       with_accounts
         (update_first (is_account accountID)
            (fun a => Account.with_Balance (add64 (Account.Balance a) amount) a)
            (accounts s)) s)
    end.

(** [Pay] *)
Definition Pay (uid : string) (accountID : Z) (amount : Money)
    (category : PaymentCategory) (s : Service)
    : outcome Payment.t * Service :=
  if amount <=? 0 then (Err ErrAmountMustBePositive, s)
  else
    match find (is_account accountID) (accounts s) with
    | None => (Err ErrAccountNotFound, s)
    | Some account =>
      if Account.Balance account <? amount then (Err ErrNotEnoughBalance, s)
      else
        let payment :=
          Payment.mk uid accountID amount category PaymentStatusInProgress in
        (Ok payment,
         with_payments (payments s ++ [payment])
           (with_accounts
              (update_first (is_account accountID)
                 (fun a =>
                    Account.with_Balance (sub64 (Account.Balance a) amount) a)
                 (accounts s)) s))
    end.

(** [FindAccountByID] *)
Definition FindAccountByID (accountID : Z) (s : Service)
    : outcome Account.t :=
  match find (is_account accountID) (accounts s) with
  | Some account => Ok account
  | None => Err ErrAccountNotFound
  end.

(** [FindPaymentByID] *)
Definition FindPaymentByID (paymentID : string) (s : Service)
    : outcome Payment.t :=
  match find (is_payment paymentID) (payments s) with
  | Some payment => Ok payment
  | None => Err ErrPaymentNotFound
  end.

(** [FindFavoriteByID] *)
Definition FindFavoriteByID (favoriteID : string) (s : Service)
    : outcome Favorite.t :=
  match find (is_favorite favoriteID) (favorites s) with
  | Some favorite => Ok favorite
  | None => Err ErrFavoriteNotFound
  end.

(** [Reject].  The second lookup binds its error to [err1], but the test
    that follows reads [err], which is [nil] at that point: the early
    return is never taken, and a [nil] account is dereferenced. *)
Definition Reject (paymentID : string) (s : Service)
    : outcome unit * Service :=
  match FindPaymentByID paymentID s with
  | Err err => (Err err, s)
  | Panic p => (Panic p, s)
  | Ok payment =>
    let s1 :=
      with_payments
        (update_first (is_payment paymentID)
           (Payment.with_Status PaymentStatusFail) (payments s)) s in
    match FindAccountByID (Payment.AccountID payment) s1 with
    | Ok _ =>
      (Ok tt,
       with_accounts
         (update_first (is_account (Payment.AccountID payment))
            (fun a =>
               Account.with_Balance
                 (add64 (Account.Balance a) (Payment.Amount payment)) a)
            (accounts s1)) s1)
    | Err _ => (Panic NilDereference, s1)
    | Panic p => (Panic p, s1)
    end
  end.

(** [Repeat] *)
Definition Repeat (uid : string) (paymentID : string) (s : Service)
    : outcome Payment.t * Service :=
  match FindPaymentByID paymentID s with
  | Err err => (Err err, s)
  | Panic p => (Panic p, s)
  | Ok payment =>
    match Pay uid (Payment.AccountID payment) (Payment.Amount payment)
            (Payment.Category payment) s with
    | (Err err, s') => (Err err, s')
    | (Panic p, s') => (Panic p, s')
    | (Ok repeatPayment, s') => (Ok repeatPayment, s')
    end
  end.

(** [FavoritePayment] *)
Definition FavoritePayment (uid : string) (paymentID : string)
    (name : string) (s : Service) : outcome Favorite.t * Service :=
  match FindPaymentByID paymentID s with
  | Err err => (Err err, s)
  | Panic p => (Panic p, s)
  | Ok payment =>
    let favorite :=
      Favorite.mk uid (Payment.AccountID payment) name
        (Payment.Amount payment) (Payment.Category payment) in
    (Ok favorite, with_favorites (favorites s ++ [favorite]) s)
  end.

(** [PayFromFavorite] *)
Definition PayFromFavorite (uid : string) (favoriteID : string)
    (s : Service) : outcome Payment.t * Service :=
  match FindFavoriteByID favoriteID s with
  | Err err => (Err err, s)
  | Panic p => (Panic p, s)
  | Ok favorite =>
    let payment :=
      Payment.mk uid (Favorite.AccountID favorite) (Favorite.Amount favorite)
        (Favorite.Category favorite) PaymentStatusInProgress in
    (Ok payment, with_payments (payments s ++ [payment]) s)
  end.

(** ** The library functions the dump code calls *)

Definition bind {A B : Type} (m : outcome A) (k : A -> outcome B)
    : outcome B :=
  match m with
  | Ok a => k a
  | Err e => Err e
  | Panic p => Panic p
  end.

Notation "x <- m ;; k" := (bind m (fun x => k))
  (at level 61, m at next level, right associativity).

(** [l[i]] of a slice: a run-time panic when [i] is out of range. *)
Definition index (l : list string) (i : nat) : outcome string :=
  match nth_error l i with
  | Some x => Ok x
  | None => Panic (IndexOutOfRange i (List.length l))
  end.

(** [strings.Split(s, sep)] for a separator of one byte. *)
Fixpoint Split (s : string) (sep : ascii) : list string :=
  match s with
  | EmptyString => [EmptyString]
  | String c r =>
    if Ascii.eqb c sep then EmptyString :: Split r sep
    else
      match Split r sep with
      | [] => [String c EmptyString]
      | x :: l => String c x :: l
      end
  end.

(** [strings.TrimSuffix(s, suffix)] for a suffix of one byte. *)
Fixpoint TrimSuffix (s : string) (suffix : ascii) : string :=
  match s with
  | EmptyString => EmptyString
  | String c r =>
    match r with
    | EmptyString => if Ascii.eqb c suffix then EmptyString else s
    | String _ _ => String c (TrimSuffix r suffix)
    end
  end.

(** [ReadString(delim)] of a [bufio.Reader] whose unread input is
    [input]: the data up to and including the first [delim] and the input
    left, or the data read and [None] for [io.EOF] when no [delim] is left. *)
Fixpoint ReadString (delim : ascii) (input : string)
    : string * option string :=
  match input with
  | EmptyString => (EmptyString, None)
  | String c r =>
    if Ascii.eqb c delim then (String c EmptyString, Some r)
    else let (data, rest) := ReadString delim r in (String c data, rest)
  end.

(** The strings that successive [ReadString] calls return before the call
    that reports [io.EOF] (see [records_ReadString]). *)
Fixpoint records (delim : ascii) (input : string) : list string :=
  match input with
  | EmptyString => []
  | String c r =>
    if Ascii.eqb c delim then String c EmptyString :: records delim r
    else
      match records delim r with
      | [] => []
      | x :: l => String c x :: l
      end
  end.

(** The body of a [for { line, err := reader.ReadString(d); if err == io.EOF
    { break }; ... }] loop run on each record in turn; a [return err] or a
    panic of the body leaves the loop and the method. *)
Fixpoint for_each {S : Type} (body : string -> S -> outcome unit * S)
    (recs : list string) (s : S) : outcome unit * S :=
  match recs with
  | [] => (Ok tt, s)
  | r :: rest =>
    match body r s with
    | (Ok _, s') => for_each body rest s'
    | (Err e, s') => (Err e, s')
    | (Panic p, s') => (Panic p, s')
    end
  end.

Definition digit_of (c : ascii) : option Z :=
  let n := Z.of_nat (nat_of_ascii c) in
  if (48 <=? n) && (n <=? 57) then Some (n - 48) else None.

(** The digit loop of [strconv.ParseUint(s, 10, 64)]: a byte that is not a
    decimal digit is a syntax error, a value above [2^64 - 1] a range error,
    whichever comes first from the left. *)
Fixpoint ParseUint_loop (s0 : string) (n : Z) (s : string) : outcome Z :=
  match s with
  | EmptyString => Ok n
  | String c r =>
    match digit_of c with
    | None => Err (ErrSyntax s0)
    | Some d =>
      if 2 ^ 64 <=? 10 * n + d then Err (ErrRange s0)
      else ParseUint_loop s0 (10 * n + d) r
    end
  end.

(** [strconv.Atoi] on a platform whose [int] has 64 bits. *)
Definition Atoi (s : string) : outcome Z :=
  match s with
  | EmptyString => Err (ErrSyntax s)
  | String c r =>
    let neg := Ascii.eqb c "-" in
    let digits := if neg || Ascii.eqb c "+" then r else s in
    match digits with
    | EmptyString => Err (ErrSyntax s)
    | String _ _ =>
      un <- ParseUint_loop s 0 digits ;;
      if negb neg && (2 ^ 63 <=? un) then Err (ErrRange s)
      else if neg && (2 ^ 63 <? un) then Err (ErrRange s)
      else Ok (if neg then - un else un)
    end
  end.

Definition digit_char (d : Z) : ascii := ascii_of_nat (Z.to_nat (48 + d)).

(** The digit loop of [strconv.FormatInt(i, 10)]: digits are produced from
    the least significant one, in front of those already written.  Twenty
    rounds cover every value below [2^64]. *)
Fixpoint format_digits (fuel : nat) (u : Z) (acc : string) : string :=
  match fuel with
  | O => acc
  | S fuel' =>
    let acc' := String (digit_char (u mod 10)) acc in
    if u <? 10 then acc' else format_digits fuel' (u / 10) acc'
  end.

(** [strconv.FormatInt(i, 10)] *)
Definition FormatInt (i : Z) : string :=
  if i <? 0 then String "-" (format_digits 20 (- i) EmptyString)
  else format_digits 20 i EmptyString.

(** ** The legacy single-file dump *)

Definition semicolon : ascii := ";".
Definition bar : ascii := "|".
Definition newline : ascii := ascii_of_nat 10.

Definition account_fields (account : Account.t) : string :=
  FormatInt (Account.ID account) ++ ";" ++ Account.Phone account ++ ";"
  ++ FormatInt (Account.Balance account).

(** [ExportToFile]: the bytes written to the created file. *)
Definition ExportToFile (s : Service) : string :=
  String.concat ""
    (map (fun account => (account_fields account ++ "|")%string)
       (accounts s)).

(** The body of the loop of [ImportFromFile]. *)
Definition ImportFromFile_record (accStr : string) (s : Service)
    : outcome unit * Service :=
  let accSls := Split accStr semicolon in
  let parsed :=
    x0 <- index accSls 0 ;;
    ID <- Atoi x0 ;;
    x2 <- index accSls 2 ;;
    Balance <- Atoi (TrimSuffix x2 bar) ;;
    x1 <- index accSls 1 ;;
    Ok (Account.mk ID x1 Balance) in
  match parsed with
  | Ok account => (Ok tt, with_accounts (accounts s ++ [account]) s)
  | Err e => (Err e, s)
  | Panic p => (Panic p, s)
  end.

(** [ImportFromFile] on a path whose file holds [file]. *)
Definition ImportFromFile (file : option string) (s : Service)
    : outcome unit * Service :=
  match file with
  | None => (Err ErrOpen, s)
  | Some content => for_each ImportFromFile_record (records bar content) s
  end.

(** ** The directory dump *)

(** The three files of a dump directory; [None] is a file that does not
    exist. *)
Record Dir : Type := mkDir
  { accounts_dump : option string;
    payments_dump : option string;
    favorites_dump : option string }.

(** A directory that holds none of the three files. *)
Definition empty_dir : Dir := mkDir None None None.

(** A line of a dump file: the text and the newline that ends it. *)
Definition ln (text : string) : string := (text ++ String newline "")%string.

Definition payment_fields (payment : Payment.t) : string :=
  Payment.ID payment ++ ";" ++ FormatInt (Payment.AccountID payment) ++ ";"
  ++ FormatInt (Payment.Amount payment) ++ ";" ++ Payment.Category payment
  ++ ";" ++ Payment.Status payment.

Definition favorite_fields (favorite : Favorite.t) : string :=
  Favorite.ID favorite ++ ";" ++ FormatInt (Favorite.AccountID favorite)
  ++ ";" ++ Favorite.Name favorite ++ ";"
  ++ FormatInt (Favorite.Amount favorite) ++ ";" ++ Favorite.Category favorite.

Definition account_line (account : Account.t) : string :=
  ln (account_fields account).
Definition payment_line (payment : Payment.t) : string :=
  ln (payment_fields payment).
Definition favorite_line (favorite : Favorite.t) : string :=
  ln (favorite_fields favorite).

(** One [if len(coll) != 0 { create the file; write a line per entry }]
    block of [Export]: the file is left as it was when the collection is
    empty. *)
Definition dump_file {A : Type} (line : A -> string) (coll : list A)
    (old : option string) : option string :=
  match coll with
  | [] => old
  | _ :: _ => Some (String.concat "" (map line coll))
  end.

(** [Export]: the directory after the call. *)
Definition Export (dir : Dir) (s : Service) : Dir :=
  mkDir (dump_file account_line (accounts s) (accounts_dump dir))
        (dump_file payment_line (payments s) (payments_dump dir))
        (dump_file favorite_line (favorites s) (favorites_dump dir)).

(** The body of the first loop of [Import] ([accounts.dump]). *)
Definition Import_account (accStr : string) (s : Service)
    : outcome unit * Service :=
  let accSls := Split (TrimSuffix accStr newline) semicolon in
  let parsed :=
    x0 <- index accSls 0 ;;
    ID <- Atoi x0 ;;
    x2 <- index accSls 2 ;;
    Balance <- Atoi x2 ;;
    Ok (ID, Balance) in
  match parsed with
  | Err e => (Err e, s)
  | Panic p => (Panic p, s)
  | Ok (ID, Balance) =>
    match FindAccountByID ID s with
    | Ok _ => (Ok tt, s)
    | _ =>
      match index accSls 1 with
      | Ok x1 =>
        let account := Account.mk ID x1 Balance in
        (Ok tt,
         with_nextAccountID ID (with_accounts (accounts s ++ [account]) s))
      | Err e => (Err e, s)
      | Panic p => (Panic p, s)
      end
    end
  end.

(** The body of the second loop of [Import] ([payments.dump]). *)
Definition Import_payment (payStr : string) (s : Service)
    : outcome unit * Service :=
  let paySls := Split (TrimSuffix payStr newline) semicolon in
  let parsed :=
    payID <- index paySls 0 ;;
    x1 <- index paySls 1 ;;
    AccountID <- Atoi x1 ;;
    x2 <- index paySls 2 ;;
    Amount <- Atoi x2 ;;
    Ok (payID, AccountID, Amount) in
  match parsed with
  | Err e => (Err e, s)
  | Panic p => (Panic p, s)
  | Ok (payID, AccountID, Amount) =>
    match FindPaymentByID payID s with
    | Ok _ => (Ok tt, s)
    | _ =>
      match (x3 <- index paySls 3 ;; x4 <- index paySls 4 ;;
             Ok (Payment.mk payID AccountID Amount x3 x4)) with
      | Ok payment => (Ok tt, with_payments (payments s ++ [payment]) s)
      | Err e => (Err e, s)
      | Panic p => (Panic p, s)
      end
    end
  end.

(** The body of the third loop of [Import] ([favorites.dump]). *)
Definition Import_favorite (favStr : string) (s : Service)
    : outcome unit * Service :=
  let favSls := Split (TrimSuffix favStr newline) semicolon in
  let parsed :=
    favID <- index favSls 0 ;;
    x1 <- index favSls 1 ;;
    AccountID <- Atoi x1 ;;
    x3 <- index favSls 3 ;;
    Amount <- Atoi x3 ;;
    Ok (favID, AccountID, Amount) in
  match parsed with
  | Err e => (Err e, s)
  | Panic p => (Panic p, s)
  | Ok (favID, AccountID, Amount) =>
    match FindFavoriteByID favID s with
    | Ok _ => (Ok tt, s)
    | _ =>
      match (x2 <- index favSls 2 ;; x4 <- index favSls 4 ;;
             Ok (Favorite.mk favID AccountID x2 Amount x4)) with
      | Ok favorite => (Ok tt, with_favorites (favorites s ++ [favorite]) s)
      | Err e => (Err e, s)
      | Panic p => (Panic p, s)
      end
    end
  end.

(** One [os.Open] block of [Import]: a file that cannot be opened is logged
    and skipped. *)
Definition Import_file (body : string -> Service -> outcome unit * Service)
    (file : option string) (s : Service) : outcome unit * Service :=
  match file with
  | None => (Ok tt, s)
  | Some content => for_each body (records newline content) s
  end.

(** [Import] *)
Definition Import (dir : Dir) (s : Service) : outcome unit * Service :=
  match Import_file Import_account (accounts_dump dir) s with
  | (Err e, s1) => (Err e, s1)
  | (Panic p, s1) => (Panic p, s1)
  | (Ok _, s1) =>
    match Import_file Import_payment (payments_dump dir) s1 with
    | (Err e, s2) => (Err e, s2)
    | (Panic p, s2) => (Panic p, s2)
    | (Ok _, s2) =>
      match Import_file Import_favorite (favorites_dump dir) s2 with
      | (Err e, s3) => (Err e, s3)
      | (Panic p, s3) => (Panic p, s3)
      | (Ok _, s3) => (Ok tt, s3)
      end
    end
  end.

(** ** Sequences of calls *)

(** The calls that can change the state of a service, with the inputs they
    read: arguments, drawn identifiers, file contents.  The lookups and the
    two exports leave the state as it is. *)
Inductive op : Type :=
| OpRegisterAccount (phone : Phone)
| OpDeposit (accountID : Z) (amount : Money)
| OpPay (uid : string) (accountID : Z) (amount : Money)
    (category : PaymentCategory)
| OpReject (paymentID : string)
| OpRepeat (uid paymentID : string)
| OpFavoritePayment (uid paymentID name : string)
| OpPayFromFavorite (uid favoriteID : string)
| OpImportFromFile (file : option string)
| OpImport (dir : Dir).

(** What a call returns. *)
Inductive value : Type :=
| VUnit
| VAccount (account : Account.t)
| VPayment (payment : Payment.t)
| VFavorite (favorite : Favorite.t).

Definition returning {A : Type} (inj : A -> value)
    (r : outcome A * Service) : outcome value * Service :=
  match r with
  | (Ok a, s) => (Ok (inj a), s)
  | (Err e, s) => (Err e, s)
  | (Panic p, s) => (Panic p, s)
  end.

Definition exec (o : op) (s : Service) : outcome value * Service :=
  match o with
  | OpRegisterAccount phone => returning VAccount (RegisterAccount phone s)
  | OpDeposit accountID amount =>
    returning (fun _ => VUnit) (Deposit accountID amount s)
  | OpPay uid accountID amount category =>
    returning VPayment (Pay uid accountID amount category s)
  | OpReject paymentID => returning (fun _ => VUnit) (Reject paymentID s)
  | OpRepeat uid paymentID => returning VPayment (Repeat uid paymentID s)
  | OpFavoritePayment uid paymentID name =>
    returning VFavorite (FavoritePayment uid paymentID name s)
  | OpPayFromFavorite uid favoriteID =>
    returning VPayment (PayFromFavorite uid favoriteID s)
  | OpImportFromFile file =>
    returning (fun _ => VUnit) (ImportFromFile file s)
  | OpImport dir => returning (fun _ => VUnit) (Import dir s)
  end.

(** The outcomes of a sequence of calls and the state after the last one.
    A caller that recovers from a panic goes on with the state the panic
    left; one that does not stops there, which is a shorter sequence. *)
Fixpoint run (ops : list op) (s : Service)
    : list (outcome value) * Service :=
  match ops with
  | [] => ([], s)
  | o :: rest =>
    let (r, s1) := exec o s in
    let (rs, s2) := run rest s1 in
    (r :: rs, s2)
  end.

Definition is_import (o : op) : bool :=
  match o with
  | OpImportFromFile _ | OpImport _ => true
  | _ => false
  end.


(** ** Predicates of the properties *)

(** The state [Reject] leaves when the payment and its account are found. *)
Definition rejected (paymentID : string) (payment : Payment.t)
    (s : Service) : Service :=
  with_accounts
    (update_first (is_account (Payment.AccountID payment))
       (fun a =>
          Account.with_Balance
            (add64 (Account.Balance a) (Payment.Amount payment)) a)
       (accounts s))
    (with_payments
       (update_first (is_payment paymentID)
          (Payment.with_Status PaymentStatusFail) (payments s)) s).

(** The ledger invariant: balances between zero and the largest [int64],
    amounts of payments and favorites above zero. *)
Definition ledger_ok (s : Service) : Prop :=
  Forall (fun a => 0 <= Account.Balance a <= max_int64) (accounts s) /\
  Forall (fun p => 0 < Payment.Amount p) (payments s) /\
  Forall (fun f => 0 < Favorite.Amount f) (favorites s).

(** The integer the import reads in field [i] of a record, when there is
    one, is at least [low]. *)
Definition field_at_least (low : Z) (trim : string -> string)
    (fields : list string) (i : nat) : bool :=
  match x <- index fields i ;; Atoi (trim x) with
  | Ok n => low <=? n
  | _ => true
  end.

Definition legacy_record_sane (accStr : string) : bool :=
  field_at_least 0 (fun x => TrimSuffix x bar) (Split accStr semicolon) 2.

Definition account_line_sane (accStr : string) : bool :=
  field_at_least 0 (fun x => x)
    (Split (TrimSuffix accStr newline) semicolon) 2.

Definition payment_line_sane (payStr : string) : bool :=
  field_at_least 1 (fun x => x)
    (Split (TrimSuffix payStr newline) semicolon) 2.

Definition favorite_line_sane (favStr : string) : bool :=
  field_at_least 1 (fun x => x)
    (Split (TrimSuffix favStr newline) semicolon) 3.

Definition file_sane (delim : ascii) (sane : string -> bool)
    (file : option string) : bool :=
  match file with
  | None => true
  | Some content => forallb sane (records delim content)
  end.

(** An import whose files hold no negative balance and no amount below
    one; every other call. *)
Definition import_sane (o : op) : bool :=
  match o with
  | OpImportFromFile file => file_sane bar legacy_record_sane file
  | OpImport dir =>
    file_sane newline account_line_sane (accounts_dump dir)
    && file_sane newline payment_line_sane (payments_dump dir)
    && file_sane newline favorite_line_sane (favorites_dump dir)
  | _ => true
  end.

(** A credit whose sum is an [int64]: the balance a [Deposit] or a [Reject]
    adds to, plus what it adds, does not exceed the largest [int64]. *)
Definition credit_fits (o : op) (s : Service) : bool :=
  match o with
  | OpDeposit accountID amount =>
    match FindAccountByID accountID s with
    | Ok a => Account.Balance a + amount <=? max_int64
    | _ => true
    end
  | OpReject paymentID =>
    match FindPaymentByID paymentID s with
    | Ok p =>
      match FindAccountByID (Payment.AccountID p) s with
      | Ok a => Account.Balance a + Payment.Amount p <=? max_int64
      | _ => true
      end
    | _ => true
    end
  | _ => true
  end.

(** A sequence of calls run from [s] in which every import is sane and
    every credit fits. *)
Fixpoint admissible (ops : list op) (s : Service) : bool :=
  match ops with
  | [] => true
  | o :: rest =>
    import_sane o && credit_fits o s && admissible rest (snd (exec o s))
  end.

(** Every ID found in a collection of [s] is found in that of [s']. *)
Definition later_accounts (s s' : Service) : Prop :=
  forall id, find (is_account id) (accounts s) <> None ->
             find (is_account id) (accounts s') <> None.

Definition later_payments (s s' : Service) : Prop :=
  forall id, find (is_payment id) (payments s) <> None ->
             find (is_payment id) (payments s') <> None.

Definition later_favorites (s s' : Service) : Prop :=
  forall id, find (is_favorite id) (favorites s) <> None ->
             find (is_favorite id) (favorites s') <> None.

(** [strings.ContainsRune]-like test: the byte [c] occurs in [s]. *)
Fixpoint contains (c : ascii) (s : string) : bool :=
  match s with
  | EmptyString => false
  | String a r => Ascii.eqb a c || contains c r
  end.

(** A text field that the dump syntax leaves whole: no [;] and no newline
    in it. *)
Definition clean (x : string) : bool :=
  negb (contains semicolon x) && negb (contains newline x).

Definition account_dumpable (a : Account.t) : Prop :=
  int64 (Account.ID a) /\ int64 (Account.Balance a) /\
  clean (Account.Phone a) = true.

Definition payment_dumpable (p : Payment.t) : Prop :=
  clean (Payment.ID p) = true /\ int64 (Payment.AccountID p) /\
  int64 (Payment.Amount p) /\ clean (Payment.Category p) = true /\
  clean (Payment.Status p) = true.

Definition favorite_dumpable (f : Favorite.t) : Prop :=
  clean (Favorite.ID f) = true /\ int64 (Favorite.AccountID f) /\
  clean (Favorite.Name f) = true /\ int64 (Favorite.Amount f) /\
  clean (Favorite.Category f) = true.

(** A state the directory dump can carry: fields that are [int64] values
    and clean texts, and no ID twice in a collection. *)
Definition dumpable (s : Service) : Prop :=
  Forall account_dumpable (accounts s) /\
  Forall payment_dumpable (payments s) /\
  Forall favorite_dumpable (favorites s) /\
  NoDup (map Account.ID (accounts s)) /\
  NoDup (map Payment.ID (payments s)) /\
  NoDup (map Favorite.ID (favorites s)).

(** ** Sample states and inputs *)

Definition s_one : Service :=
  mkService 1 [Account.mk 1 "79000000001" 10000] [] [].

Definition s_paid : Service :=
  mkService 1 [Account.mk 1 "79000000001" 8000]
    [Payment.mk "u1" 1 2000 "food" PaymentStatusInProgress] [].


(** The payment list a dump can leave: a payment whose account is in no
    dump. *)
Definition s_orphan : Service :=
  mkService 0 [] [Payment.mk "p1" 7 500 "food" PaymentStatusInProgress] [].

Definition s_ledger : Service :=
  mkService 2
    [Account.mk 1 "79000000001" 8000; Account.mk 2 "79000000002" 0]
    [Payment.mk "u1" 1 2000 "food" PaymentStatusInProgress;
     Payment.mk "u2" 1 (-3) "" PaymentStatusFail]
    [Favorite.mk "f1" 1 "lunch" 2000 "food"].

(** The accounts a legacy file that lists a higher ID first leaves, and
    those a legacy file imported twice leaves. *)
Definition s_unsorted : Service :=
  mkService 0
    [Account.mk 2 "79000000002" 0; Account.mk 1 "79000000001" 0] [] [].

Definition s_twins : Service :=
  mkService 0
    [Account.mk 1 "79000000001" 0; Account.mk 1 "79000000001" 0] [] [].

Definition dir_demo : Dir :=
  mkDir (Some (ln "1;79000000001;8000" ++ ln "2;79000000002;0")%string)
        (Some (ln "u1;1;2000;food;INPROGRESS"))
        (Some (ln "f1;1;lunch;2000;food")).


Definition ops_ledger : list op :=
  [OpRegisterAccount "79000000001"; OpDeposit 1 10000;
   OpPay "u1" 1 2000 "food"; OpFavoritePayment "f1" "u1" "lunch";
   OpPayFromFavorite "u2" "f1"; OpReject "u2"; OpReject "u1";
   OpRepeat "u3" "u1"; OpPay "u4" 1 999999 "car";
   OpImport (mkDir (Some (ln "7;79000000007;30")) None None);
   OpImportFromFile (Some "8;79000000008;0|")].

Definition ops_negative_dump : list op :=
  [OpImport (mkDir (Some (ln "1;79000000001;-5")) None None)].

Definition ops_overflow : list op :=
  [OpRegisterAccount "79000000001"; OpDeposit 1 max_int64; OpDeposit 1 1].

(** Two identifiers of the form [uuid.New().String()] returns. *)
Definition uuid_1 : string := "123e4567-e89b-42d3-a456-426614174000".
Definition uuid_2 : string := "9b2f1c3a-7d4e-4f60-8a1b-2c3d4e5f6071".

(** A registration, a deposit, a payment and its favorite, with the two
    identifiers drawn, and the state they leave. *)
Definition ops_drawn : list op :=
  [OpRegisterAccount "79000000001"; OpDeposit 1 10000;
   OpPay uuid_1 1 2000 "food"; OpFavoritePayment uuid_2 uuid_1 "lunch"].

Definition s_drawn : Service :=
  mkService 1 [Account.mk 1 "79000000001" 8000]
    [Payment.mk uuid_1 1 2000 "food" PaymentStatusInProgress]
    [Favorite.mk uuid_2 1 "lunch" 2000 "food"].

(** A balance brought to the largest [int64] while a payment of 5 is in
    progress. *)
Definition ops_full : list op :=
  [OpRegisterAccount "79000000001"; OpDeposit 1 max_int64;
   OpPay uuid_1 1 5 "food"; OpDeposit 1 5].


(** ** Predicates of the further properties *)

(** What never changes in an account, and in a payment. *)
Definition account_key (a : Account.t) : Z * Phone :=
  (Account.ID a, Account.Phone a).

Definition payment_key (p : Payment.t)
    : string * Z * Money * PaymentCategory :=
  (Payment.ID p, Payment.AccountID p, Payment.Amount p, Payment.Category p).

(** An account the legacy file can carry: [int64] numbers and a phone
    without [;] and [|]. *)
Definition legacy_dumpable (a : Account.t) : Prop :=
  int64 (Account.ID a) /\ int64 (Account.Balance a) /\
  contains semicolon (Account.Phone a) = false /\
  contains bar (Account.Phone a) = false.

(** [l'] is [l] with entries appended. *)
Definition extends {A : Type} (l l' : list A) : Prop :=
  exists t, l' = l ++ t.

(** [s'] holds the collections of [s] with entries appended. *)
Definition grows (s s' : Service) : Prop :=
  extends (accounts s) (accounts s') /\
  extends (payments s) (payments s') /\
  extends (favorites s) (favorites s').

(** [s'] holds every entry of [s] at its place: the accounts with their ID
    and phone, the payments with all but their status, the favorites as
    they are; entries may have been appended. *)
Definition keeps (s s' : Service) : Prop :=
  extends (map account_key (accounts s)) (map account_key (accounts s')) /\
  extends (map payment_key (payments s)) (map payment_key (payments s')) /\
  extends (favorites s) (favorites s').

(** A sequence of calls without imports. *)
Definition import_free (ops : list op) : bool :=
  forallb (fun o => negb (is_import o)) ops.

Definition is_panic {A : Type} (r : outcome A) : bool :=
  match r with
  | Panic _ => true
  | _ => false
  end.

(** A payment, and a favorite, of an account the service holds, with an
    amount above zero; the payment in progress or failed. *)
Definition payment_linked (s : Service) (p : Payment.t) : Prop :=
  find (is_account (Payment.AccountID p)) (accounts s) <> None /\
  0 < Payment.Amount p /\
  (Payment.Status p = PaymentStatusInProgress \/
   Payment.Status p = PaymentStatusFail).

Definition favorite_linked (s : Service) (f : Favorite.t) : Prop :=
  find (is_account (Favorite.AccountID f)) (accounts s) <> None /\
  0 < Favorite.Amount f.

Definition linked (s : Service) : Prop :=
  Forall (payment_linked s) (payments s) /\
  Forall (favorite_linked s) (favorites s).

(** The counter stands at the number of accounts, and the accounts carry
    the IDs 1, 2, ... in the order of the list. *)
Definition counted (s : Service) : Prop :=
  nextAccountID s = Z.of_nat (List.length (accounts s)) /\
  map Account.ID (accounts s)
  = map Z.of_nat (seq 1 (List.length (accounts s))).

Definition ops_shop : list op :=
  [OpRegisterAccount "79000000001"; OpDeposit 1 10000;
   OpPay "u1" 1 2000 "food"; OpFavoritePayment "f1" "u1" "lunch";
   OpPayFromFavorite "u2" "f1"; OpReject "u2"; OpReject "u1";
   OpRepeat "u3" "u1"; OpRegisterAccount "79000000002";
   OpPay "u4" 2 1 "car"; OpReject "zz"].

(** ** pkg/wallet/service_test.go *)

Module testAccount.
Record t : Type := mk
  { phone : Phone;
    balance : Money;
    payments : list (Money * PaymentCategory) }.
End testAccount.

Definition defaultTestAccount : testAccount.t :=
  testAccount.mk "992000000001" 1000000000000 [(100000, "auto")].

(** What [addAccount] returns: the account and the payments, or the error
    [fmt.Errorf] builds from a format and the error of the failed call. *)
Inductive addAccount_result : Type :=
| Added (account : Account.t) (payments : list Payment.t)
| Failed (format : string) (err : error)
| Crashed (p : panic).

(** The loop of [addAccount]: one [Pay] per entry, the [i]-th with the
    [i]-th identifier drawn, until one fails. *)
Fixpoint pay_each (draw : nat -> string) (i : nat) (accountID : Z)
    (items : list (Money * PaymentCategory)) (s : Service)
    : outcome (list Payment.t) * Service :=
  match items with
  | [] => (Ok [], s)
  | (amount, category) :: rest =>
    match Pay (draw i) accountID amount category s with
    | (Ok payment, s1) =>
      match pay_each draw (S i) accountID rest s1 with
      | (Ok l, s2) => (Ok (payment :: l), s2)
      | (Err e, s2) => (Err e, s2)
      | (Panic p, s2) => (Panic p, s2)
      end
    | (Err e, s1) => (Err e, s1)
    | (Panic p, s1) => (Panic p, s1)
    end
  end.

(** [addAccount].  The account returned is a pointer to the entry that
    [RegisterAccount] appended; what the caller reads through it is the
    entry at that place of the list when [addAccount] returns. *)
Definition addAccount (draw : nat -> string) (data : testAccount.t)
    (s : Service) : addAccount_result * Service :=
  match RegisterAccount (testAccount.phone data) s with
  | (Err e, s1) => (Failed "can't register account, error = %v" e, s1)
  | (Panic p, s1) => (Crashed p, s1)
  | (Ok account, s1) =>
    match Deposit (Account.ID account) (testAccount.balance data) s1 with
    | (Err e, s2) => (Failed "can't deposity account, error = %v" e, s2)
    | (Panic p, s2) => (Crashed p, s2)
    | (Ok _, s2) =>
      match pay_each draw 0 (Account.ID account)
              (testAccount.payments data) s2 with
      | (Err e, s3) => (Failed "can't make payment, error = %v" e, s3)
      | (Panic p, s3) => (Crashed p, s3)
      | (Ok l, s3) =>
        (Added (nth (List.length (accounts s)) (accounts s3) account) l, s3)
      end
    end
  end.

(** The sum of the amounts of a list of payments to make. *)
Definition total (items : list (Money * PaymentCategory)) : Z :=
  fold_right (fun item sum => fst item + sum) 0 items.

(** * Properties *)

(** ** Machine integers *)

Lemma wrap64_small (z : Z) : int64 z -> wrap64 z = z.
Proof.
  unfold int64, min_int64, max_int64, wrap64. intros H.
  rewrite Z.mod_small; lia.
Qed.

Lemma wrap64_int64 (z : Z) : int64 (wrap64 z).
Proof.
  unfold int64, min_int64, max_int64, wrap64.
  pose proof (Z.mod_pos_bound (z + 2 ^ 63) (2 ^ 64)). lia.
Qed.

(** ** Linear scans and updates through the pointer they find *)

Section Scan.
Context {A : Type}.
Variables (hit : A -> bool) (upd : A -> A).

Lemma find_app_last (l : list A) (x : A) :
  find hit (l ++ [x])
  = match find hit l with
    | Some y => Some y
    | None => if hit x then Some x else None
    end.
Proof.
  induction l as [|y l IH]; simpl.
  - reflexivity.
  - destruct (hit y); [reflexivity | exact IH].
Qed.

Lemma find_none_iff (l : list A) :
  find hit l = None <-> (forall x, In x l -> hit x = false).
Proof.
  split.
  - intros H x Hx. exact (find_none hit l H x Hx).
  - induction l as [|y l IH]; simpl; intros H; [reflexivity|].
    rewrite (H y (or_introl eq_refl)). apply IH. intros x Hx. apply H. now right.
Qed.

Lemma find_update_first (l : list A) (x : A) :
  find hit l = Some x -> hit (upd x) = true ->
  find hit (update_first hit upd l) = Some (upd x).
Proof.
  induction l as [|y l IH]; simpl; [discriminate|].
  destruct (hit y) eqn:Hy; intros Hf Hu; simpl.
  - injection Hf as ->. now rewrite Hu.
  - rewrite Hy. now apply IH.
Qed.

Lemma update_first_none (l : list A) :
  find hit l = None -> update_first hit upd l = l.
Proof.
  induction l as [|y l IH]; simpl; [reflexivity|].
  destruct (hit y); [discriminate|]. intros H. now rewrite IH.
Qed.

Lemma update_first_length (l : list A) :
  List.length (update_first hit upd l) = List.length l.
Proof.
  induction l as [|y l IH]; simpl; [reflexivity|].
  destruct (hit y); simpl; congruence.
Qed.

(** A scan for something else sees no difference when the update does not
    change what that scan tests. *)
Lemma find_update_first_frame (other : A -> bool) (l : list A) :
  (forall x, hit x = true -> other x = false /\ other (upd x) = false) ->
  find other (update_first hit upd l) = find other l.
Proof.
  intros H. induction l as [|y l IH]; simpl; [reflexivity|].
  destruct (hit y) eqn:Hy; simpl.
  - destruct (H y Hy) as [-> ->]. reflexivity.
  - now rewrite IH.
Qed.

Lemma Forall_update_first (P : A -> Prop) (l : list A) :
  Forall P l -> (forall x, In x l -> hit x = true -> P x -> P (upd x)) ->
  Forall P (update_first hit upd l).
Proof.
  induction l as [|y l IH]; simpl; intros HF Hu; [constructor|].
  inversion HF as [|? ? Hy Hl]; subst.
  destruct (hit y) eqn:E.
  - constructor; [|exact Hl]. apply Hu; auto.
  - constructor; [exact Hy|]. apply IH; [exact Hl|]. intros x Hx. apply Hu. now right.
Qed.
End Scan.

Lemma is_account_true (accountID : Z) (a : Account.t) :
  is_account accountID a = true <-> Account.ID a = accountID.
Proof. unfold is_account. apply Z.eqb_eq. Qed.

Lemma is_payment_true (paymentID : string) (p : Payment.t) :
  is_payment paymentID p = true <-> Payment.ID p = paymentID.
Proof. unfold is_payment. apply String.eqb_eq. Qed.

Lemma is_favorite_true (favoriteID : string) (f : Favorite.t) :
  is_favorite favoriteID f = true <-> Favorite.ID f = favoriteID.
Proof. unfold is_favorite. apply String.eqb_eq. Qed.

Lemma FindAccountByID_Ok (accountID : Z) (s : Service) (a : Account.t) :
  FindAccountByID accountID s = Ok a <->
  find (is_account accountID) (accounts s) = Some a.
Proof.
  unfold FindAccountByID.
  destruct (find _ _); split; intros H; try discriminate; congruence.
Qed.

Lemma FindAccountByID_Err (accountID : Z) (s : Service) (e : error) :
  FindAccountByID accountID s = Err e <->
  e = ErrAccountNotFound /\
  forall a, In a (accounts s) -> Account.ID a <> accountID.
Proof.
  unfold FindAccountByID.
  destruct (find _ _) as [a|] eqn:E; split.
  - discriminate.
  - intros [_ H]. apply find_some in E as [Hin Hhit].
    apply is_account_true in Hhit. now apply H in Hin.
  - intros H. injection H as <-. split; [reflexivity|].
    intros a Hin Heq. apply (find_none _ _ E) in Hin.
    apply is_account_true in Heq. congruence.
  - intros [-> _]. reflexivity.
Qed.

Lemma FindPaymentByID_Ok (paymentID : string) (s : Service) (p : Payment.t) :
  FindPaymentByID paymentID s = Ok p <->
  find (is_payment paymentID) (payments s) = Some p.
Proof.
  unfold FindPaymentByID.
  destruct (find _ _); split; intros H; try discriminate; congruence.
Qed.

Lemma FindPaymentByID_Err (paymentID : string) (s : Service) (e : error) :
  FindPaymentByID paymentID s = Err e <->
  e = ErrPaymentNotFound /\
  forall p, In p (payments s) -> Payment.ID p <> paymentID.
Proof.
  unfold FindPaymentByID.
  destruct (find _ _) as [a|] eqn:E; split.
  - discriminate.
  - intros [_ H]. apply find_some in E as [Hin Hhit].
    apply is_payment_true in Hhit. now apply H in Hin.
  - intros H. injection H as <-. split; [reflexivity|].
    intros a Hin Heq. apply (find_none _ _ E) in Hin.
    apply is_payment_true in Heq. congruence.
  - intros [-> _]. reflexivity.
Qed.

Lemma FindFavoriteByID_Ok (favoriteID : string) (s : Service)
    (f : Favorite.t) :
  FindFavoriteByID favoriteID s = Ok f <->
  find (is_favorite favoriteID) (favorites s) = Some f.
Proof.
  unfold FindFavoriteByID.
  destruct (find _ _); split; intros H; try discriminate; congruence.
Qed.

Lemma update_first_ext {A : Type} (hit : A -> bool) (upd upd' : A -> A)
    (l : list A) (x : A) :
  find hit l = Some x -> upd x = upd' x ->
  update_first hit upd l = update_first hit upd' l.
Proof.
  induction l as [|y l IH]; simpl; [discriminate|].
  destruct (hit y); intros Hf He.
  - injection Hf as ->. now rewrite He.
  - now rewrite IH.
Qed.

Lemma FindAccountByID_with_payments (l : list Payment.t) (id : Z)
    (s : Service) :
  FindAccountByID id (with_payments l s) = FindAccountByID id s.
Proof. reflexivity. Qed.

(** What a scan by ID sees after the first account with ID [accountID] was
    updated in place. *)
Lemma FindAccountByID_update (accountID : Z) (upd : Account.t -> Account.t)
    (s : Service) (account : Account.t) :
  (forall a, Account.ID a = accountID -> Account.ID (upd a) = accountID) ->
  FindAccountByID accountID s = Ok account ->
  let s' :=
    with_accounts (update_first (is_account accountID) upd (accounts s)) s in
  FindAccountByID accountID s' = Ok (upd account) /\
  (forall id, id <> accountID ->
   FindAccountByID id s' = FindAccountByID id s).
Proof.
  intros Hid Hf. apply FindAccountByID_Ok in Hf. split.
  - apply FindAccountByID_Ok. simpl. apply find_update_first; [exact Hf|].
    apply find_some in Hf as [_ Hhit]. apply is_account_true.
    apply Hid. now apply is_account_true.
  - intros id Hne. unfold FindAccountByID. simpl.
    rewrite find_update_first_frame; [reflexivity|].
    intros x Hx. apply is_account_true in Hx. unfold is_account.
    rewrite (Hid x Hx), Hx. split; apply Z.eqb_neq; congruence.
Qed.

Lemma FindAccountByID_ID (accountID : Z) (s : Service) (a : Account.t) :
  FindAccountByID accountID s = Ok a -> Account.ID a = accountID.
Proof.
  intros H. apply FindAccountByID_Ok in H. apply find_some in H as [_ H].
  now apply is_account_true.
Qed.

Lemma FindPaymentByID_ID (paymentID : string) (s : Service) (p : Payment.t) :
  FindPaymentByID paymentID s = Ok p -> Payment.ID p = paymentID.
Proof.
  intros H. apply FindPaymentByID_Ok in H. apply find_some in H as [_ H].
  now apply is_payment_true.
Qed.

(** A payment appended under an ID that no earlier payment has is the one a
    lookup by that ID finds. *)
Lemma FindPaymentByID_appended (payment : Payment.t) (s s' : Service) :
  payments s' = payments s ++ [payment] ->
  (forall p, In p (payments s) -> Payment.ID p <> Payment.ID payment) ->
  FindPaymentByID (Payment.ID payment) s' = Ok payment.
Proof.
  intros Hp Hfresh. apply FindPaymentByID_Ok. rewrite Hp, find_app_last.
  assert (E : find (is_payment (Payment.ID payment)) (payments s) = None).
  { apply find_none_iff. intros x Hx. unfold is_payment.
    apply String.eqb_neq. now apply Hfresh. }
  rewrite E. unfold is_payment. now rewrite String.eqb_refl.
Qed.

(** ** Arithmetic and list facts used below *)

Lemma wrap64_above (z : Z) :
  max_int64 < z < 2 ^ 64 - min_int64 -> wrap64 z = z - 2 ^ 64.
Proof.
  unfold max_int64, min_int64, wrap64. intros H.
  replace (z + 2 ^ 63) with (z + 2 ^ 63 - 2 ^ 64 + 1 * 2 ^ 64) by lia.
  rewrite Z_mod_plus_full, Z.mod_small; lia.
Qed.

Lemma wrap64_below (z : Z) :
  min_int64 - 2 ^ 64 <= z < min_int64 -> wrap64 z = z + 2 ^ 64.
Proof.
  unfold min_int64, wrap64. intros H.
  replace (z + 2 ^ 63) with (z + 2 ^ 63 + 2 ^ 64 + (-1) * 2 ^ 64) by lia.
  rewrite Z_mod_plus_full, Z.mod_small; lia.
Qed.

Lemma wrap64_add_l (x y : Z) : wrap64 (wrap64 x + y) = wrap64 (x + y).
Proof.
  unfold wrap64. f_equal.
  replace ((x + 2 ^ 63) mod 2 ^ 64 - 2 ^ 63 + y + 2 ^ 63)
    with ((x + 2 ^ 63) mod 2 ^ 64 + y) by lia.
  rewrite Zplus_mod_idemp_l. f_equal. lia.
Qed.

Lemma update_first_twice {A : Type} (hit : A -> bool) (f g : A -> A)
    (l : list A) :
  (forall x, hit x = true -> hit (f x) = true) ->
  update_first hit g (update_first hit f l)
  = update_first hit (fun x => g (f x)) l.
Proof.
  intros H. induction l as [|y l IH]; cbn [update_first]; [reflexivity|].
  destruct (hit y) eqn:E; cbn [update_first].
  - now rewrite (H y E).
  - now rewrite E, IH.
Qed.

Lemma update_first_same {A : Type} (hit : A -> bool) (upd : A -> A)
    (l : list A) (x : A) :
  find hit l = Some x -> upd x = x -> update_first hit upd l = l.
Proof.
  induction l as [|y l IH]; cbn [find update_first]; [reflexivity|].
  destruct (hit y); intros Hf Hu.
  - injection Hf as ->. now rewrite Hu.
  - now rewrite IH.
Qed.

Lemma update_first_last {A : Type} (hit : A -> bool) (upd : A -> A)
    (l : list A) (x : A) :
  find hit l = None -> hit x = true ->
  update_first hit upd (l ++ [x]) = l ++ [upd x].
Proof.
  induction l as [|y l IH]; cbn [find update_first app]; intros Hl Hx.
  - now rewrite Hx.
  - destruct (hit y); [discriminate|]. now rewrite IH.
Qed.

Lemma NoDup_snoc {A : Type} (l : list A) (x : A) :
  NoDup l -> ~ In x l -> NoDup (l ++ [x]).
Proof.
  intros Hl Hx. apply NoDup_app; [exact Hl|repeat constructor; intros []|].
  intros y Hy [<-|[]]. now apply Hx.
Qed.


(** ** Payments *)


(** The state after a successful [Pay] and what the lookups see in it. *)
Lemma Pay_success (uid : string) (accountID : Z) (amount : Money)
    (category : PaymentCategory) (s : Service) (account : Account.t) :
  0 < amount ->
  FindAccountByID accountID s = Ok account ->
  amount <= Account.Balance account ->
  let payment :=
    Payment.mk uid accountID amount category PaymentStatusInProgress in
  let debited :=
    Account.with_Balance (sub64 (Account.Balance account) amount) account in
  let s' :=
    with_payments (payments s ++ [payment])
      (with_accounts
         (update_first (is_account accountID) (fun _ => debited)
            (accounts s)) s) in
  Pay uid accountID amount category s = (Ok payment, s') /\
  FindAccountByID accountID s' = Ok debited /\
  (forall id, id <> accountID ->
   FindAccountByID id s' = FindAccountByID id s) /\
  ((forall p, In p (payments s) -> Payment.ID p <> uid) ->
   FindPaymentByID uid s' = Ok payment).
Proof.
  intros H Hf Hb payment debited s'.
  pose proof Hf as Hf'. apply FindAccountByID_Ok in Hf'.
  assert (Hid : forall a : Account.t, Account.ID a = accountID ->
                Account.ID debited = accountID).
  { intros _ _. simpl. now apply FindAccountByID_ID in Hf. }
  destruct (FindAccountByID_update accountID (fun _ => debited) s account
              Hid Hf) as [Hsame Hother].
  split; [|split; [exact Hsame|split; [exact Hother|]]].
  - unfold Pay. apply Z.leb_gt in H. rewrite H, Hf'.
    assert (Hge : (Account.Balance account <? amount) = false)
      by (apply Z.ltb_ge; lia).
    rewrite Hge.
    rewrite (update_first_ext (is_account accountID) _ (fun _ => debited)
               (accounts s) account Hf') by reflexivity.
    reflexivity.
  - intros Hfresh.
    apply (FindPaymentByID_appended payment
             (with_accounts
                (update_first (is_account accountID) (fun _ => debited)
                   (accounts s)) s)); [reflexivity|exact Hfresh].
Qed.



Example s_drawn_reached : run ops_drawn fresh
  = ([Ok (VAccount (Account.mk 1 "79000000001" 0)); Ok VUnit;
      Ok (VPayment (Payment.mk uuid_1 1 2000 "food" PaymentStatusInProgress));
      Ok (VFavorite (Favorite.mk uuid_2 1 "lunch" 2000 "food"))],
     s_drawn).
Proof. reflexivity. Qed.


Lemma Reject_found (paymentID : string) (s : Service) (payment : Payment.t)
    (account : Account.t) :
  FindPaymentByID paymentID s = Ok payment ->
  FindAccountByID (Payment.AccountID payment) s = Ok account ->
  Reject paymentID s = (Ok tt, rejected paymentID payment s) /\
  FindPaymentByID paymentID (rejected paymentID payment s)
  = Ok (Payment.with_Status PaymentStatusFail payment) /\
  FindAccountByID (Payment.AccountID payment) (rejected paymentID payment s)
  = Ok (Account.with_Balance
          (add64 (Account.Balance account) (Payment.Amount payment)) account) /\
  (forall id, id <> Payment.AccountID payment ->
   FindAccountByID id (rejected paymentID payment s) = FindAccountByID id s).
Proof.
  intros Hp Ha. split; [|split].
  - unfold Reject. rewrite Hp.
    rewrite FindAccountByID_with_payments, Ha. reflexivity.
  - apply FindPaymentByID_Ok. simpl. apply FindPaymentByID_Ok in Hp.
    apply find_update_first; [exact Hp|].
    apply find_some in Hp as [_ Hhit]. exact Hhit.
  - unfold rejected.
    apply (FindAccountByID_update (Payment.AccountID payment)
             (fun a =>
                Account.with_Balance
                  (add64 (Account.Balance a) (Payment.Amount payment)) a)
             (with_payments
                (update_first (is_payment paymentID)
                   (Payment.with_Status PaymentStatusFail) (payments s)) s)
             account); [intros a Hid; exact Hid|exact Ha].
Qed.

(** C2, as the code has it.  When the payment is found and an account has
    the payment's [AccountID], [Reject] succeeds; the first payment with the
    ID then has the status [FAIL] and its other fields as before, and the
    first account with the payment's [AccountID] has the old balance plus
    the payment's amount in 64-bit arithmetic: the exact sum when the sum is
    an [int64], the sum less [2^64] when it is above the largest [int64],
    the sum plus [2^64] when it is below the smallest.  Every other payment
    and account, the favorites and the counter are as before.  A second
    [Reject] of the same payment succeeds too, leaves the payments as they
    are and adds the amount once more. *)
Theorem Reject_spec (paymentID : string) (s : Service)
    (payment : Payment.t) (account : Account.t) :
  FindPaymentByID paymentID s = Ok payment ->
  FindAccountByID (Payment.AccountID payment) s = Ok account ->
  let owner := Payment.AccountID payment in
  let amount := Payment.Amount payment in
  let balance := Account.Balance account in
  let failed :=
    Payment.mk (Payment.ID payment) owner amount (Payment.Category payment)
      PaymentStatusFail in
  let credited :=
    fun b : Money => Account.mk (Account.ID account) (Account.Phone account) b in
  exists s1 s2,
    Reject paymentID s = (Ok tt, s1) /\
    payments s1
    = update_first (is_payment paymentID) (fun _ => failed) (payments s) /\
    FindPaymentByID paymentID s1 = Ok failed /\
    accounts s1
    = update_first (is_account owner)
        (fun _ => credited (add64 balance amount)) (accounts s) /\
    FindAccountByID owner s1 = Ok (credited (add64 balance amount)) /\
    (forall id, id <> owner -> FindAccountByID id s1 = FindAccountByID id s) /\
    favorites s1 = favorites s /\
    nextAccountID s1 = nextAccountID s /\
    (int64 (balance + amount) -> add64 balance amount = balance + amount) /\
    (int64 balance -> int64 amount -> max_int64 < balance + amount ->
     add64 balance amount = balance + amount - 2 ^ 64) /\
    (int64 balance -> int64 amount -> balance + amount < min_int64 ->
     add64 balance amount = balance + amount + 2 ^ 64) /\
    Reject paymentID s1 = (Ok tt, s2) /\
    payments s2 = payments s1 /\
    accounts s2
    = update_first (is_account owner)
        (fun _ => credited (add64 (add64 balance amount) amount))
        (accounts s) /\
    FindAccountByID owner s2
    = Ok (credited (add64 (add64 balance amount) amount)) /\
    (int64 (balance + 2 * amount) ->
     add64 (add64 balance amount) amount = balance + 2 * amount).
Proof.
  intros Hp Ha owner amount balance failed credited.
  destruct (Reject_found paymentID s payment account Hp Ha)
    as (HR1 & HP1 & HA1 & HO1).
  set (s1 := rejected paymentID payment s) in *.
  assert (HP1' : FindPaymentByID paymentID s1 = Ok failed) by exact HP1.
  assert (HA1' : FindAccountByID (Payment.AccountID failed) s1
                 = Ok (credited (add64 balance amount))) by exact HA1.
  destruct (Reject_found paymentID s1 failed (credited (add64 balance amount))
              HP1' HA1') as (HR2 & _ & HA2 & _).
  pose proof Hp as Hpf. apply FindPaymentByID_Ok in Hpf.
  pose proof Ha as Haf. apply FindAccountByID_Ok in Haf.
  assert (Epay : payments s1
                 = update_first (is_payment paymentID) (fun _ => failed)
                     (payments s)).
  { apply (update_first_ext (is_payment paymentID)
             (Payment.with_Status PaymentStatusFail) (fun _ => failed)
             (payments s) payment Hpf). reflexivity. }
  assert (Eacc : accounts s1
                 = update_first (is_account owner)
                     (fun _ => credited (add64 balance amount)) (accounts s)).
  { apply (update_first_ext (is_account owner)
             (fun a => Account.with_Balance
                         (add64 (Account.Balance a) amount) a)
             (fun _ => credited (add64 balance amount))
             (accounts s) account Haf). reflexivity. }
  exists s1, (rejected paymentID failed s1).
  split; [exact HR1|]. split; [exact Epay|]. split; [exact HP1|].
  split; [exact Eacc|]. split; [exact HA1|]. split; [exact HO1|].
  split; [reflexivity|]. split; [reflexivity|].
  split; [apply wrap64_small|].
  split.
  { intros Hb Hm Hover. unfold add64. apply wrap64_above.
    unfold int64, min_int64, max_int64 in *. lia. }
  split.
  { intros Hb Hm Hunder. unfold add64. apply wrap64_below.
    unfold int64, min_int64, max_int64 in *. lia. }
  split; [exact HR2|].
  assert (Hidp : is_payment paymentID failed = true).
  { apply is_payment_true. cbn [failed Payment.ID].
    now apply FindPaymentByID_ID in Hp. }
  assert (Hida : forall b, is_account owner (credited b) = true).
  { intros b. apply is_account_true. cbn [credited Account.ID].
    now apply FindAccountByID_ID in Ha. }
  split; [|split; [|split; [exact HA2|]]].
  - cbn [rejected payments with_accounts with_payments]. rewrite Epay.
    rewrite update_first_twice by (intros x _; exact Hidp). reflexivity.
  - cbn [rejected accounts with_accounts with_payments]. rewrite Eacc.
    rewrite update_first_twice by (intros x _; apply Hida). reflexivity.
  - intros H. unfold add64. rewrite wrap64_add_l. rewrite wrap64_small.
    + lia.
    + replace (balance + amount + amount) with (balance + 2 * amount) by lia.
      exact H.
Qed.

Lemma Reject_spec_witness :
  exists s1 s2,
    Reject "u1" s_paid = (Ok tt, s1) /\
    FindPaymentByID "u1" s1
    = Ok (Payment.mk "u1" 1 2000 "food" PaymentStatusFail) /\
    FindAccountByID 1 s1 = Ok (Account.mk 1 "79000000001" 10000) /\
    Reject "u1" s1 = (Ok tt, s2) /\
    FindAccountByID 1 s2 = Ok (Account.mk 1 "79000000001" 12000).
Proof.
  destruct (Reject_spec "u1" s_paid
              (Payment.mk "u1" 1 2000 "food" PaymentStatusInProgress)
              (Account.mk 1 "79000000001" 8000) eq_refl eq_refl)
    as (s1 & s2 & H1 & _ & H2 & _ & H3 & _ & _ & _ & _ & _ & _ & H4 & _ & _
        & H5 & _).
  exists s1, s2. repeat split; assumption.
Defined.

Example s_full_reached :
  snd (run ops_full fresh)
  = mkService 1 [Account.mk 1 "79000000001" max_int64]
      [Payment.mk uuid_1 1 5 "food" PaymentStatusInProgress] [].
Proof. vm_compute. reflexivity. Qed.

(** C2, as stated, fails.  After a registration, a deposit of the largest
    [int64], a payment of 5 and a deposit of 5, the balance is the largest
    [int64] again and the payment is in progress.  [Reject] of the payment
    does not leave the balance plus 5: the 64-bit sum wraps around and the
    balance is [-9223372036854775804]. *)
Lemma Reject_credit_wraps :
  let s := snd (run ops_full fresh) in
  FindPaymentByID uuid_1 s
  = Ok (Payment.mk uuid_1 1 5 "food" PaymentStatusInProgress) /\
  FindAccountByID 1 s = Ok (Account.mk 1 "79000000001" max_int64) /\
  fst (Reject uuid_1 s) = Ok tt /\
  FindAccountByID 1 (snd (Reject uuid_1 s))
  = Ok (Account.mk 1 "79000000001" (-9223372036854775804)) /\
  -9223372036854775804 <> max_int64 + 5.
Proof.
  cbn zeta. repeat split; try (vm_compute; reflexivity).
  vm_compute. discriminate.
Qed.

(** C3.  On a payment whose [AccountID] matches no account, [Reject] marks
    the payment [FAIL] and then panics on the nil account: the error of the
    account lookup is not returned. *)
Theorem Reject_orphan_panics :
  Import (mkDir None
            (Some (ln "p1;7;500;food;INPROGRESS"))
            None) fresh
  = (Ok tt, s_orphan) /\
  FindAccountByID 7 s_orphan = Err ErrAccountNotFound /\
  Reject "p1" s_orphan
  = (Panic NilDereference,
     mkService 0 [] [Payment.mk "p1" 7 500 "food" PaymentStatusFail] []).
Proof. repeat split. Qed.

(** The same on every state: with the payment found and its account absent,
    the outcome of [Reject] is the panic, never an error value. *)
Lemma Reject_account_missing (paymentID : string) (s : Service)
    (payment : Payment.t) :
  FindPaymentByID paymentID s = Ok payment ->
  (forall a, In a (accounts s) -> Account.ID a <> Payment.AccountID payment) ->
  fst (Reject paymentID s) = Panic NilDereference.
Proof.
  intros Hp Hno. unfold Reject. rewrite Hp.
  rewrite FindAccountByID_with_payments.
  assert (E : FindAccountByID (Payment.AccountID payment) s
              = Err ErrAccountNotFound) by (apply FindAccountByID_Err; auto).
  now rewrite E.
Qed.







(** ** Registration *)

Lemma existsb_has_phone (phone : Phone) (l : list Account.t) :
  existsb (has_phone phone) l = true <->
  exists a, In a l /\ Account.Phone a = phone.
Proof.
  rewrite existsb_exists. unfold has_phone.
  split; intros (a & Hin & H); exists a; split; auto; now apply String.eqb_eq.
Qed.


Lemma run_cons (o : op) (ops : list op) (s : Service) :
  run (o :: ops) s
  = (fst (exec o s) :: fst (run ops (snd (exec o s))),
     snd (run ops (snd (exec o s)))).
Proof.
  simpl. destruct (exec o s) as [r s1]. simpl.
  destruct (run ops s1) as [rs s2]. reflexivity.
Qed.



Lemma RegisterAccount_new (phone : Phone) (s : Service) :
  (forall a, In a (accounts s) -> Account.Phone a <> phone) ->
  let account := Account.mk (add64 (nextAccountID s) 1) phone 0 in
  RegisterAccount phone s
  = (Ok account,
     mkService (Account.ID account) (accounts s ++ [account]) (payments s)
       (favorites s)).
Proof.
  intros H account. unfold RegisterAccount.
  destruct (existsb (has_phone phone) (accounts s)) eqn:E; [|reflexivity].
  apply existsb_has_phone in E as (a & Hin & Hph).
  now apply H in Hin.
Qed.




(** ** Records with missing fields *)

(** C10.  The imports index the fields of a record without looking at how
    many there are.  A legacy record with two fields, an account line with
    two fields, a payment line with four and a favorite line with four each
    end the import in an index-out-of-range panic, not in an error value. *)
Theorem Import_index_out_of_range :
  ImportFromFile (Some "1;79000000001|") fresh
  = (Panic (IndexOutOfRange 2 2), fresh) /\
  Import (mkDir (Some (ln "1;79000000001")) None None) fresh
  = (Panic (IndexOutOfRange 2 2), fresh) /\
  Import (mkDir None (Some (ln "p1;1;2000;food")) None) fresh
  = (Panic (IndexOutOfRange 4 4), fresh) /\
  Import (mkDir None None (Some (ln "f1;1;lunch;2000"))) fresh
  = (Panic (IndexOutOfRange 4 4), fresh).
Proof. repeat split. Qed.

(** ** Balances never below zero *)

(** What [Atoi] returns is an [int64]. *)
Lemma digit_of_range (c : ascii) (d : Z) :
  digit_of c = Some d -> 0 <= d <= 9.
Proof.
  unfold digit_of.
  destruct (_ && _) eqn:E; [|discriminate].
  apply andb_true_iff in E as [E1 E2].
  apply Z.leb_le in E1, E2. intros H. injection H as <-. lia.
Qed.

Lemma ParseUint_loop_range (s0 s : string) (n m : Z) :
  0 <= n < 2 ^ 64 -> ParseUint_loop s0 n s = Ok m -> 0 <= m < 2 ^ 64.
Proof.
  revert n. induction s as [|c r IH]; cbn [ParseUint_loop]; intros n Hn H.
  - injection H as <-. exact Hn.
  - destruct (digit_of c) as [d|] eqn:Hd; [|discriminate].
    apply digit_of_range in Hd.
    destruct (2 ^ 64 <=? 10 * n + d) eqn:E; [discriminate|].
    apply Z.leb_gt in E. apply (IH (10 * n + d)); [lia|exact H].
Qed.

Lemma Atoi_int64 (s : string) (n : Z) : Atoi s = Ok n -> int64 n.
Proof.
  unfold Atoi. destruct s as [|c r]; [discriminate|].
  set (neg := Ascii.eqb c "-").
  destruct (if neg || Ascii.eqb c "+" then r else String c r) as [|c' r'];
    [discriminate|].
  destruct (ParseUint_loop (String c r) 0 (String c' r')) as [un| |] eqn:E;
    cbn [bind]; try discriminate.
  apply ParseUint_loop_range in E; [|lia].
  unfold int64, min_int64, max_int64.
  destruct neg; cbn [negb andb].
  - destruct (2 ^ 63 <? un) eqn:E1; [discriminate|].
    apply Z.ltb_ge in E1. intros H. injection H as <-. lia.
  - destruct (2 ^ 63 <=? un) eqn:E1; [discriminate|].
    apply Z.leb_gt in E1. intros H. injection H as <-. lia.
Qed.

Lemma Forall_update_first_found {A : Type} (hit : A -> bool) (upd : A -> A)
    (P : A -> Prop) (l : list A) (x : A) :
  Forall P l -> find hit l = Some x -> P (upd x) ->
  Forall P (update_first hit upd l).
Proof.
  induction l as [|y l IH]; simpl; intros HF Hf Hu; [constructor|].
  inversion HF as [|? ? Hy Hl]; subst.
  destruct (hit y).
  - injection Hf as ->. now constructor.
  - constructor; [exact Hy|]. now apply IH.
Qed.

Lemma Forall_snoc {A : Type} (P : A -> Prop) (l : list A) (x : A) :
  Forall P l -> P x -> Forall P (l ++ [x]).
Proof. intros Hl Hx. apply Forall_app. split; [exact Hl|now constructor]. Qed.

Lemma find_Forall {A : Type} (hit : A -> bool) (P : A -> Prop) (l : list A)
    (x : A) :
  Forall P l -> find hit l = Some x -> P x.
Proof.
  intros HF Hf. apply find_some in Hf as [Hin _].
  rewrite Forall_forall in HF. now apply HF.
Qed.

Lemma Pay_ledger_ok (uid : string) (accountID : Z) (amount : Money)
    (category : PaymentCategory) (s : Service) :
  ledger_ok s -> ledger_ok (snd (Pay uid accountID amount category s)).
Proof.
  intros (Ha & Hp & Hf). unfold Pay.
  destruct (amount <=? 0) eqn:E; [repeat split; assumption|].
  apply Z.leb_gt in E.
  destruct (find (is_account accountID) (accounts s)) as [a|] eqn:Ef;
    [|repeat split; assumption].
  destruct (Account.Balance a <? amount) eqn:El; [repeat split; assumption|].
  apply Z.ltb_ge in El.
  pose proof (find_Forall _ _ _ _ Ha Ef) as Hb. simpl in Hb.
  split; [|split]; simpl.
  - apply Forall_update_first_found with (x := a); [exact Ha|exact Ef|].
    simpl. unfold sub64. rewrite wrap64_small.
    + lia.
    + unfold int64, min_int64, max_int64 in *. lia.
  - apply Forall_snoc; [exact Hp|simpl; lia].
  - exact Hf.
Qed.

Lemma Deposit_ledger_ok (accountID : Z) (amount : Money) (s : Service) :
  ledger_ok s -> credit_fits (OpDeposit accountID amount) s = true ->
  ledger_ok (snd (Deposit accountID amount s)).
Proof.
  intros (Ha & Hp & Hf) Hfit. unfold Deposit.
  destruct (amount <=? 0) eqn:E; [repeat split; assumption|].
  apply Z.leb_gt in E.
  cbn [credit_fits] in Hfit. unfold FindAccountByID in Hfit.
  destruct (find (is_account accountID) (accounts s)) as [a|] eqn:Ef;
    [|repeat split; assumption].
  apply Z.leb_le in Hfit.
  pose proof (find_Forall _ _ _ _ Ha Ef) as Hb. cbn beta in Hb.
  split; [|split]; cbn [snd accounts payments favorites with_accounts].
  - apply Forall_update_first_found with (x := a); [exact Ha|exact Ef|].
    cbn [Account.Balance Account.with_Balance]. unfold add64.
    rewrite wrap64_small; [lia|].
    unfold int64, min_int64, max_int64 in *. lia.
  - exact Hp.
  - exact Hf.
Qed.

Lemma Reject_ledger_ok (paymentID : string) (s : Service) :
  ledger_ok s -> credit_fits (OpReject paymentID) s = true ->
  ledger_ok (snd (Reject paymentID s)).
Proof.
  intros (Ha & Hp & Hf) Hfit. unfold Reject. cbn [credit_fits] in Hfit.
  destruct (FindPaymentByID paymentID s) as [p| |] eqn:Ep;
    try (repeat split; assumption).
  rewrite FindAccountByID_with_payments.
  assert (Hp' : Forall (fun p => 0 < Payment.Amount p)
                  (update_first (is_payment paymentID)
                     (Payment.with_Status PaymentStatusFail) (payments s))).
  { apply Forall_update_first; [exact Hp|]. intros x _ _ Hx. exact Hx. }
  apply FindPaymentByID_Ok in Ep.
  pose proof (find_Forall _ _ _ _ Hp Ep) as Hamt. cbn beta in Hamt.
  unfold FindAccountByID in *.
  destruct (find (is_account (Payment.AccountID p)) (accounts s))
    as [a|] eqn:Ef.
  - apply Z.leb_le in Hfit.
    pose proof (find_Forall _ _ _ _ Ha Ef) as Hb. cbn beta in Hb.
    split; [|split];
      cbn [snd accounts payments favorites with_accounts with_payments].
    + apply Forall_update_first_found with (x := a); [exact Ha|exact Ef|].
      cbn [Account.Balance Account.with_Balance]. unfold add64.
      rewrite wrap64_small; [lia|].
      unfold int64, min_int64, max_int64 in *. lia.
    + exact Hp'.
    + exact Hf.
  - split; [|split]; assumption.
Qed.

Lemma FavoritePayment_ledger_ok (uid paymentID name : string) (s : Service) :
  ledger_ok s -> ledger_ok (snd (FavoritePayment uid paymentID name s)).
Proof.
  intros (Ha & Hp & Hf). unfold FavoritePayment.
  destruct (FindPaymentByID paymentID s) as [p| |] eqn:Ep;
    try (repeat split; assumption).
  apply FindPaymentByID_Ok in Ep.
  pose proof (find_Forall _ _ _ _ Hp Ep) as Hamt.
  split; [exact Ha|split; [exact Hp|]].
  apply Forall_snoc; [exact Hf|exact Hamt].
Qed.

Lemma PayFromFavorite_ledger_ok (uid favoriteID : string) (s : Service) :
  ledger_ok s -> ledger_ok (snd (PayFromFavorite uid favoriteID s)).
Proof.
  intros (Ha & Hp & Hf). unfold PayFromFavorite.
  destruct (FindFavoriteByID favoriteID s) as [f| |] eqn:Ef;
    try (repeat split; assumption).
  apply FindFavoriteByID_Ok in Ef.
  pose proof (find_Forall _ _ _ _ Hf Ef) as Hamt.
  split; [exact Ha|split; [|exact Hf]].
  apply Forall_snoc; [exact Hp|exact Hamt].
Qed.

Lemma Repeat_ledger_ok (uid paymentID : string) (s : Service) :
  ledger_ok s -> ledger_ok (snd (Repeat uid paymentID s)).
Proof.
  intros H. unfold Repeat.
  destruct (FindPaymentByID paymentID s) as [p| |]; try exact H.
  pose proof (Pay_ledger_ok uid (Payment.AccountID p) (Payment.Amount p)
                (Payment.Category p) s H) as HP.
  destruct (Pay _ _ _ _ s) as [[?|?|?] s']; exact HP.
Qed.

Lemma RegisterAccount_ledger_ok (phone : Phone) (s : Service) :
  ledger_ok s -> ledger_ok (snd (RegisterAccount phone s)).
Proof.
  intros (Ha & Hp & Hf). unfold RegisterAccount.
  destruct (existsb _ _); [repeat split; assumption|].
  split; [|split; assumption].
  apply Forall_snoc; [exact Ha|].
  cbn [Account.Balance]. unfold max_int64. lia.
Qed.

(** What holds before a loop and is kept by its body on every record holds
    after the loop, however the loop ends. *)
Lemma for_each_invariant {S : Type} (I : S -> Prop)
    (body : string -> S -> outcome unit * S) (recs : list string) (s : S) :
  (forall r s, In r recs -> I s -> I (snd (body r s))) ->
  I s -> I (snd (for_each body recs s)).
Proof.
  revert s. induction recs as [|r rest IH]; intros s Hbody Hs; [exact Hs|].
  cbn [for_each].
  pose proof (Hbody r s (or_introl eq_refl) Hs) as H1.
  destruct (body r s) as [[[]|e|p] s1]; cbn [snd] in *; try exact H1.
  apply IH; [|exact H1]. intros r' s' Hin. apply Hbody. now right.
Qed.

Ltac split_bind :=
  repeat match goal with
         | |- context [bind ?m _] =>
           let E := fresh "E" in destruct m eqn:E; cbn [bind]
         end.

Lemma field_at_least_sound (low : Z) (trim : string -> string)
    (fields : list string) (i : nat) (x : string) (n : Z) :
  field_at_least low trim fields i = true ->
  index fields i = Ok x -> Atoi (trim x) = Ok n -> low <= n <= max_int64.
Proof.
  unfold field_at_least. intros H Hx Hn. rewrite Hx in H. cbn [bind] in H.
  rewrite Hn in H. apply Z.leb_le in H.
  apply Atoi_int64 in Hn. unfold int64 in Hn. lia.
Qed.

Ltac amount_positive :=
  match goal with
  | |- 0 < ?n =>
    assert (1 <= n <= max_int64)
      by (eapply (field_at_least_sound 1 (fun x => x)); eassumption);
    lia
  end.

Lemma ImportFromFile_record_ledger_ok (accStr : string) (s : Service) :
  legacy_record_sane accStr = true -> ledger_ok s ->
  ledger_ok (snd (ImportFromFile_record accStr s)).
Proof.
  intros Hsane (Ha & Hp & Hf). unfold ImportFromFile_record.
  split_bind; try (repeat split; assumption).
  split; [|split; assumption].
  apply Forall_snoc; [exact Ha|]. cbn [Account.Balance].
  eapply (field_at_least_sound 0 (fun x => TrimSuffix x bar)); eassumption.
Qed.

Lemma Import_account_ledger_ok (accStr : string) (s : Service) :
  account_line_sane accStr = true -> ledger_ok s ->
  ledger_ok (snd (Import_account accStr s)).
Proof.
  intros Hsane (Ha & Hp & Hf). unfold Import_account.
  split_bind; try (repeat split; assumption).
  destruct (FindAccountByID _ s); try (repeat split; assumption);
    destruct (index _ 1) eqn:?; try (repeat split; assumption);
    (split; [|split; assumption]);
    (apply Forall_snoc; [exact Ha|]); cbn [Account.Balance];
    eapply (field_at_least_sound 0 (fun x => x)); eassumption.
Qed.

Lemma Import_payment_ledger_ok (payStr : string) (s : Service) :
  payment_line_sane payStr = true -> ledger_ok s ->
  ledger_ok (snd (Import_payment payStr s)).
Proof.
  intros Hsane (Ha & Hp & Hf). unfold Import_payment.
  split_bind; try (repeat split; assumption);
    destruct (FindPaymentByID _ s); try (repeat split; assumption);
    (split; [exact Ha|split; [|exact Hf]]);
    (apply Forall_snoc; [exact Hp|]); cbn [Payment.Amount]; amount_positive.
Qed.

Lemma Import_favorite_ledger_ok (favStr : string) (s : Service) :
  favorite_line_sane favStr = true -> ledger_ok s ->
  ledger_ok (snd (Import_favorite favStr s)).
Proof.
  intros Hsane (Ha & Hp & Hf). unfold Import_favorite.
  split_bind; try (repeat split; assumption);
    destruct (FindFavoriteByID _ s); try (repeat split; assumption);
    (split; [exact Ha|split; [exact Hp|]]);
    (apply Forall_snoc; [exact Hf|]); cbn [Favorite.Amount]; amount_positive.
Qed.

Lemma for_each_sane_ledger_ok (sane : string -> bool)
    (body : string -> Service -> outcome unit * Service) (delim : ascii)
    (file : option string) (s : Service) :
  (forall r s, sane r = true -> ledger_ok s -> ledger_ok (snd (body r s))) ->
  file_sane delim sane file = true -> ledger_ok s ->
  match file with
  | None => True
  | Some content => ledger_ok (snd (for_each body (records delim content) s))
  end.
Proof.
  intros Hbody Hsane Hs. destruct file as [content|]; [|exact I].
  cbn [file_sane] in Hsane. rewrite forallb_forall in Hsane.
  apply for_each_invariant; [|exact Hs].
  intros r s' Hin. apply Hbody. now apply Hsane.
Qed.

Lemma Import_file_ledger_ok (sane : string -> bool)
    (body : string -> Service -> outcome unit * Service)
    (file : option string) (s : Service) :
  (forall r s, sane r = true -> ledger_ok s -> ledger_ok (snd (body r s))) ->
  file_sane newline sane file = true -> ledger_ok s ->
  ledger_ok (snd (Import_file body file s)).
Proof.
  intros Hbody Hsane Hs.
  pose proof (for_each_sane_ledger_ok sane body newline file s
                Hbody Hsane Hs) as H.
  destruct file; [exact H|exact Hs].
Qed.

Lemma Import_ledger_ok (dir : Dir) (s : Service) :
  import_sane (OpImport dir) = true -> ledger_ok s ->
  ledger_ok (snd (Import dir s)).
Proof.
  cbn [import_sane]. intros Hsane Hs.
  apply andb_true_iff in Hsane as [Hsane Hf].
  apply andb_true_iff in Hsane as [Ha Hp].
  unfold Import.
  pose proof (Import_file_ledger_ok _ _ _ s Import_account_ledger_ok Ha Hs)
    as H1.
  destruct (Import_file Import_account _ s) as [[[]|e|p] s1];
    cbn [snd] in *; try exact H1.
  pose proof (Import_file_ledger_ok _ _ _ s1 Import_payment_ledger_ok Hp H1)
    as H2.
  destruct (Import_file Import_payment _ s1) as [[[]|e|p] s2];
    cbn [snd] in *; try exact H2.
  pose proof (Import_file_ledger_ok _ _ _ s2 Import_favorite_ledger_ok Hf H2)
    as H3.
  destruct (Import_file Import_favorite _ s2) as [[[]|e|p] s3];
    cbn [snd] in *; exact H3.
Qed.

Lemma ImportFromFile_ledger_ok (file : option string) (s : Service) :
  import_sane (OpImportFromFile file) = true -> ledger_ok s ->
  ledger_ok (snd (ImportFromFile file s)).
Proof.
  cbn [import_sane]. intros Hsane Hs.
  pose proof (for_each_sane_ledger_ok _ _ bar file s
                ImportFromFile_record_ledger_ok Hsane Hs) as H.
  destruct file; [exact H|exact Hs].
Qed.

Lemma snd_returning {A : Type} (inj : A -> value) (r : outcome A * Service) :
  snd (returning inj r) = snd r.
Proof. destruct r as [[a|e|p] s]; reflexivity. Qed.

(** Every admissible call keeps the ledger invariant. *)
Lemma exec_ledger_ok (o : op) (s : Service) :
  ledger_ok s -> import_sane o = true -> credit_fits o s = true ->
  ledger_ok (snd (exec o s)).
Proof.
  intros Hs Hsane Hfit. destruct o; cbn [exec]; rewrite snd_returning.
  - now apply RegisterAccount_ledger_ok.
  - now apply Deposit_ledger_ok.
  - now apply Pay_ledger_ok.
  - now apply Reject_ledger_ok.
  - now apply Repeat_ledger_ok.
  - now apply FavoritePayment_ledger_ok.
  - now apply PayFromFavorite_ledger_ok.
  - now apply ImportFromFile_ledger_ok.
  - now apply Import_ledger_ok.
Qed.

Lemma run_ledger_ok (ops : list op) (s : Service) :
  ledger_ok s -> admissible ops s = true -> ledger_ok (snd (run ops s)).
Proof.
  revert s. induction ops as [|o ops IH]; intros s Hs Hadm; [exact Hs|].
  cbn [admissible] in Hadm.
  apply andb_true_iff in Hadm as [Hadm Hrest].
  apply andb_true_iff in Hadm as [Hsane Hfit].
  rewrite run_cons. cbn [snd]. apply IH; [|exact Hrest].
  now apply exec_ledger_ok.
Qed.

Lemma fresh_ledger_ok : ledger_ok fresh.
Proof. repeat split; constructor. Qed.

(** C7, as the code has it.  After any sequence of calls run on a fresh
    service in which every imported record carries a balance of at least
    zero and an amount of at least one, and in which the sum of every
    [Deposit] and [Reject] credit is an [int64], the balance of every
    account is at least zero. *)
Theorem balances_non_negative (ops : list op) :
  admissible ops fresh = true ->
  Forall (fun a => 0 <= Account.Balance a) (accounts (snd (run ops fresh))).
Proof.
  intros Hadm.
  destruct (run_ledger_ok ops fresh fresh_ledger_ok Hadm) as (Ha & _).
  eapply Forall_impl; [|exact Ha]. cbn beta. intros a H. lia.
Qed.

Lemma balances_non_negative_witness :
  Forall (fun a => 0 <= Account.Balance a)
    (accounts (snd (run ops_ledger fresh))).
Proof. apply (balances_non_negative ops_ledger). vm_compute. reflexivity. Defined.

(** C7, as stated, fails: the import of a dump whose account line carries a
    negative balance stores that balance. *)
Lemma negative_balance_reachable :
  ~ (forall ops,
       Forall (fun a => 0 <= Account.Balance a)
         (accounts (snd (run ops fresh)))).
Proof.
  intros H. specialize (H ops_negative_dump).
  vm_compute in H. inversion H as [|? ? Hneg _]. apply Hneg. reflexivity.
Qed.

(** Why the credits are required to fit: a deposit that carries the balance
    above the largest [int64] wraps it around to the smallest one. *)
Example deposit_wraps_around :
  accounts (snd (run ops_overflow fresh))
  = [Account.mk 1 "79000000001" min_int64].
Proof. vm_compute. reflexivity. Qed.

(** ** Importing the same files again *)

(** A loop whose body, once it has run on a record without failing, does
    nothing when it meets the record again in any later state. *)
Section Reimport.
Variable body : string -> Service -> outcome unit * Service.
(** [later s s']: every ID the body looks up and finds in [s] is found in
    [s'] too. *)
Variable later : Service -> Service -> Prop.
Hypothesis later_refl : forall s, later s s.
Hypothesis later_trans :
  forall s1 s2 s3, later s1 s2 -> later s2 s3 -> later s1 s3.
Hypothesis body_later : forall r s, later s (snd (body r s)).
Hypothesis body_failure :
  forall r s, fst (body r s) <> Ok tt -> snd (body r s) = s.
Hypothesis body_again :
  forall r s s', fst (body r s) = Ok tt -> later (snd (body r s)) s' ->
  body r s' = (Ok tt, s').

Lemma for_each_later (recs : list string) (s : Service) :
  later s (snd (for_each body recs s)).
Proof.
  revert s. induction recs as [|r rest IH]; intros s; [apply later_refl|].
  cbn [for_each]. pose proof (body_later r s) as H.
  destruct (body r s) as [[[]|e|p] s1]; cbn [snd] in *; try exact H.
  eapply later_trans; [exact H|apply IH].
Qed.

Lemma for_each_again (recs : list string) (s : Service) :
  let o := fst (for_each body recs s) in
  let s1 := snd (for_each body recs s) in
  for_each body recs s1 = (o, s1) /\
  (o = Ok tt -> forall s', later s1 s' -> for_each body recs s' = (Ok tt, s')).
Proof.
  revert s. induction recs as [|r rest IH]; intros s; cbn zeta.
  - split; reflexivity.
  - cbn [for_each].
    pose proof (body_failure r s) as Hfail.
    pose proof (body_again r s) as Hagain.
    destruct (body r s) as [[[]|e|p] s1] eqn:Eb; cbn [fst snd] in *.
    + destruct (IH s1) as [IH1 IH2].
      pose proof (for_each_later rest s1) as Hl.
      destruct (for_each body rest s1) as [o s2]; cbn [fst snd] in *.
      split.
      * rewrite (Hagain s2 eq_refl Hl). exact IH1.
      * intros -> s' Hs'.
        rewrite (Hagain s' eq_refl (later_trans _ _ _ Hl Hs')).
        now apply IH2.
    + rewrite Hfail in * by discriminate. rewrite Eb.
      split; [reflexivity|discriminate].
    + rewrite Hfail in * by discriminate. rewrite Eb.
      split; [reflexivity|discriminate].
Qed.
End Reimport.

Lemma find_app_found {A : Type} (hit : A -> bool) (l : list A) (x : A) :
  find hit l <> None -> find hit (l ++ [x]) <> None.
Proof.
  rewrite find_app_last. destruct (find hit l); [discriminate|congruence].
Qed.

Lemma find_app_hit {A : Type} (hit : A -> bool) (l : list A) (x : A) :
  hit x = true -> find hit (l ++ [x]) <> None.
Proof.
  intros H. rewrite find_app_last, H. destruct (find hit l); discriminate.
Qed.

Lemma Import_account_later (r : string) (s : Service) :
  later_accounts s (snd (Import_account r s)).
Proof.
  unfold Import_account, FindAccountByID, later_accounts.
  destruct (bind (index _ 0) _) as [[ID Balance]|e|p];
    cbn [snd]; try tauto.
  destruct (find (is_account ID) (accounts s)); cbn [snd]; try tauto.
  destruct (index _ 1); cbn [snd accounts with_accounts with_nextAccountID];
    try tauto.
  intros id. apply find_app_found.
Qed.

Lemma Import_account_failure (r : string) (s : Service) :
  fst (Import_account r s) <> Ok tt -> snd (Import_account r s) = s.
Proof.
  unfold Import_account, FindAccountByID.
  destruct (bind (index _ 0) _) as [[ID Balance]|e|p];
    cbn [fst snd]; try tauto.
  destruct (find (is_account ID) (accounts s)); cbn [fst snd]; try tauto.
  destruct (index _ 1); cbn [fst snd]; tauto.
Qed.

Lemma Import_account_again (r : string) (s s' : Service) :
  fst (Import_account r s) = Ok tt ->
  later_accounts (snd (Import_account r s)) s' ->
  Import_account r s' = (Ok tt, s').
Proof.
  unfold Import_account, FindAccountByID, later_accounts.
  destruct (bind (index _ 0) _) as [[ID Balance]|e|p];
    cbn [fst snd]; try discriminate.
  intros Hok Hlater.
  assert (Hknown : find (is_account ID) (accounts s') <> None).
  { apply Hlater.
    destruct (find (is_account ID) (accounts s)) eqn:Ef; cbn [snd].
    - rewrite Ef. discriminate.
    - destruct (index _ 1); cbn [fst snd] in *; try discriminate.
      cbn [accounts with_accounts with_nextAccountID].
      apply find_app_hit. apply Z.eqb_refl. }
  destruct (find (is_account ID) (accounts s')); [reflexivity|congruence].
Qed.

Lemma Import_payment_later (r : string) (s : Service) :
  later_payments s (snd (Import_payment r s)).
Proof.
  unfold Import_payment, FindPaymentByID, later_payments.
  destruct (bind (index _ 0) _) as [[[payID AccountID] Amount]|e|p];
    cbn [snd]; try tauto.
  destruct (find (is_payment payID) (payments s)); cbn [snd]; try tauto.
  destruct (bind (index _ 3) _); cbn [snd payments with_payments]; try tauto.
  intros id. apply find_app_found.
Qed.

Lemma Import_payment_failure (r : string) (s : Service) :
  fst (Import_payment r s) <> Ok tt -> snd (Import_payment r s) = s.
Proof.
  unfold Import_payment, FindPaymentByID.
  destruct (bind (index _ 0) _) as [[[payID AccountID] Amount]|e|p];
    cbn [fst snd]; try tauto.
  destruct (find (is_payment payID) (payments s)); cbn [fst snd]; try tauto.
  destruct (bind (index _ 3) _); cbn [fst snd]; tauto.
Qed.

Lemma Import_payment_again (r : string) (s s' : Service) :
  fst (Import_payment r s) = Ok tt ->
  later_payments (snd (Import_payment r s)) s' ->
  Import_payment r s' = (Ok tt, s').
Proof.
  unfold Import_payment, FindPaymentByID, later_payments.
  destruct (bind (index _ 0) _) as [[[payID AccountID] Amount]|e|p];
    cbn [fst snd]; try discriminate.
  intros Hok Hlater.
  assert (Hknown : find (is_payment payID) (payments s') <> None).
  { apply Hlater.
    destruct (find (is_payment payID) (payments s)) eqn:Ef; cbn [snd].
    - rewrite Ef. discriminate.
    - destruct (bind (index _ 3) _) as [payment|e|p] eqn:Eb;
        cbn [fst snd] in *; try discriminate.
      cbn [payments with_payments]. apply find_app_hit.
      revert Eb. split_bind; try discriminate.
      intros H. injection H as <-. apply String.eqb_refl. }
  destruct (find (is_payment payID) (payments s')); [reflexivity|congruence].
Qed.

Lemma Import_favorite_later (r : string) (s : Service) :
  later_favorites s (snd (Import_favorite r s)).
Proof.
  unfold Import_favorite, FindFavoriteByID, later_favorites.
  destruct (bind (index _ 0) _) as [[[favID AccountID] Amount]|e|p];
    cbn [snd]; try tauto.
  destruct (find (is_favorite favID) (favorites s)); cbn [snd]; try tauto.
  destruct (bind (index _ 2) _); cbn [snd favorites with_favorites]; try tauto.
  intros id. apply find_app_found.
Qed.

Lemma Import_favorite_failure (r : string) (s : Service) :
  fst (Import_favorite r s) <> Ok tt -> snd (Import_favorite r s) = s.
Proof.
  unfold Import_favorite, FindFavoriteByID.
  destruct (bind (index _ 0) _) as [[[favID AccountID] Amount]|e|p];
    cbn [fst snd]; try tauto.
  destruct (find (is_favorite favID) (favorites s)); cbn [fst snd]; try tauto.
  destruct (bind (index _ 2) _); cbn [fst snd]; tauto.
Qed.

Lemma Import_favorite_again (r : string) (s s' : Service) :
  fst (Import_favorite r s) = Ok tt ->
  later_favorites (snd (Import_favorite r s)) s' ->
  Import_favorite r s' = (Ok tt, s').
Proof.
  unfold Import_favorite, FindFavoriteByID, later_favorites.
  destruct (bind (index _ 0) _) as [[[favID AccountID] Amount]|e|p];
    cbn [fst snd]; try discriminate.
  intros Hok Hlater.
  assert (Hknown : find (is_favorite favID) (favorites s') <> None).
  { apply Hlater.
    destruct (find (is_favorite favID) (favorites s)) eqn:Ef; cbn [snd].
    - rewrite Ef. discriminate.
    - destruct (bind (index _ 2) _) as [favorite|e|p] eqn:Eb;
        cbn [fst snd] in *; try discriminate.
      cbn [favorites with_favorites]. apply find_app_hit.
      revert Eb. split_bind; try discriminate.
      intros H. injection H as <-. apply String.eqb_refl. }
  destruct (find (is_favorite favID) (favorites s'));
    [reflexivity|congruence].
Qed.

Lemma Import_payment_accounts (r : string) (s : Service) :
  accounts (snd (Import_payment r s)) = accounts s.
Proof.
  unfold Import_payment.
  destruct (bind (index _ 0) _) as [[[payID AccountID] Amount]|e|p];
    cbn [snd]; try reflexivity.
  destruct (FindPaymentByID payID s); try reflexivity;
    destruct (bind (index _ 3) _); reflexivity.
Qed.

Lemma Import_favorite_frame (r : string) (s : Service) :
  accounts (snd (Import_favorite r s)) = accounts s /\
  payments (snd (Import_favorite r s)) = payments s.
Proof.
  unfold Import_favorite.
  destruct (bind (index _ 0) _) as [[[favID AccountID] Amount]|e|p];
    cbn [snd]; try (split; reflexivity).
  destruct (FindFavoriteByID favID s); try (split; reflexivity);
    destruct (bind (index _ 2) _); split; reflexivity.
Qed.

Lemma Import_file_frame (I : Service -> Prop)
    (body : string -> Service -> outcome unit * Service)
    (file : option string) (s : Service) :
  (forall r s, I s -> I (snd (body r s))) ->
  I s -> I (snd (Import_file body file s)).
Proof.
  intros Hbody Hs. destruct file as [content|]; [|exact Hs].
  cbn [Import_file].
  apply (for_each_invariant I); [|exact Hs]. intros r s' _. apply Hbody.
Qed.

Section ReimportFile.
Variable body : string -> Service -> outcome unit * Service.
Variable later : Service -> Service -> Prop.
Hypothesis later_refl : forall s, later s s.
Hypothesis later_trans :
  forall s1 s2 s3, later s1 s2 -> later s2 s3 -> later s1 s3.
Hypothesis body_later : forall r s, later s (snd (body r s)).
Hypothesis body_failure :
  forall r s, fst (body r s) <> Ok tt -> snd (body r s) = s.
Hypothesis body_again :
  forall r s s', fst (body r s) = Ok tt -> later (snd (body r s)) s' ->
  body r s' = (Ok tt, s').

Lemma Import_file_again (file : option string) (s : Service) :
  let o := fst (Import_file body file s) in
  let s1 := snd (Import_file body file s) in
  Import_file body file s1 = (o, s1) /\
  (o = Ok tt ->
   forall s', later s1 s' -> Import_file body file s' = (Ok tt, s')).
Proof.
  destruct file as [content|]; cbn [Import_file].
  - apply (for_each_again body later later_refl later_trans body_later
             body_failure body_again).
  - split; reflexivity.
Qed.
End ReimportFile.

Lemma later_accounts_refl (s : Service) : later_accounts s s.
Proof. intros id H. exact H. Qed.
Lemma later_accounts_trans (s1 s2 s3 : Service) :
  later_accounts s1 s2 -> later_accounts s2 s3 -> later_accounts s1 s3.
Proof. intros H1 H2 id H. apply H2, H1, H. Qed.
Lemma later_payments_refl (s : Service) : later_payments s s.
Proof. intros id H. exact H. Qed.
Lemma later_payments_trans (s1 s2 s3 : Service) :
  later_payments s1 s2 -> later_payments s2 s3 -> later_payments s1 s3.
Proof. intros H1 H2 id H. apply H2, H1, H. Qed.
Lemma later_favorites_refl (s : Service) : later_favorites s s.
Proof. intros id H. exact H. Qed.
Lemma later_favorites_trans (s1 s2 s3 : Service) :
  later_favorites s1 s2 -> later_favorites s2 s3 -> later_favorites s1 s3.
Proof. intros H1 H2 id H. apply H2, H1, H. Qed.

Lemma accounts_again (file : option string) (s : Service) :
  let o := fst (Import_file Import_account file s) in
  let s1 := snd (Import_file Import_account file s) in
  Import_file Import_account file s1 = (o, s1) /\
  (o = Ok tt ->
   forall s', later_accounts s1 s' ->
   Import_file Import_account file s' = (Ok tt, s')).
Proof.
  exact (Import_file_again Import_account later_accounts later_accounts_refl
           later_accounts_trans Import_account_later Import_account_failure
           Import_account_again file s).
Qed.

Lemma payments_again (file : option string) (s : Service) :
  let o := fst (Import_file Import_payment file s) in
  let s1 := snd (Import_file Import_payment file s) in
  Import_file Import_payment file s1 = (o, s1) /\
  (o = Ok tt ->
   forall s', later_payments s1 s' ->
   Import_file Import_payment file s' = (Ok tt, s')).
Proof.
  exact (Import_file_again Import_payment later_payments later_payments_refl
           later_payments_trans Import_payment_later Import_payment_failure
           Import_payment_again file s).
Qed.

Lemma favorites_again (file : option string) (s : Service) :
  let o := fst (Import_file Import_favorite file s) in
  let s1 := snd (Import_file Import_favorite file s) in
  Import_file Import_favorite file s1 = (o, s1) /\
  (o = Ok tt ->
   forall s', later_favorites s1 s' ->
   Import_file Import_favorite file s' = (Ok tt, s')).
Proof.
  exact (Import_file_again Import_favorite later_favorites
           later_favorites_refl later_favorites_trans Import_favorite_later
           Import_favorite_failure Import_favorite_again file s).
Qed.

(** A second [Import] of the same directory, run on the state the first one
    left, ends as the first one did and changes nothing. *)
Lemma Import_again (dir : Dir) (s : Service) :
  Import dir (snd (Import dir s)) = Import dir s.
Proof.
  unfold Import.
  destruct (accounts_again (accounts_dump dir) s) as [A1 A2].
  destruct (Import_file Import_account (accounts_dump dir) s)
    as [[[]|e|p] s1] eqn:E1; cbn [fst snd] in *;
    try (rewrite A1; reflexivity).
  destruct (payments_again (payments_dump dir) s1) as [P1 P2].
  pose proof (Import_file_frame (fun s' => accounts s' = accounts s1)
                Import_payment (payments_dump dir) s1
                (fun r s' H => eq_trans (Import_payment_accounts r s') H)
                eq_refl) as Fa.
  destruct (Import_file Import_payment (payments_dump dir) s1)
    as [[[]|e|p] s2] eqn:E2; cbn [fst snd] in *.
  2,3: rewrite (A2 eq_refl s2), P1;
       [reflexivity | intros id; rewrite Fa; auto].
  destruct (favorites_again (favorites_dump dir) s2) as [F1 F2].
  pose proof (Import_file_frame
                (fun s' => accounts s' = accounts s2 /\
                           payments s' = payments s2)
                Import_favorite (favorites_dump dir) s2
                (fun r s' H =>
                   conj (eq_trans (proj1 (Import_favorite_frame r s'))
                           (proj1 H))
                        (eq_trans (proj2 (Import_favorite_frame r s'))
                           (proj2 H)))
                (conj eq_refl eq_refl)) as [Ga Gp].
  assert (HA : forall s3, accounts s3 = accounts s2 ->
               Import_file Import_account (accounts_dump dir) s3
               = (Ok tt, s3)).
  { intros s3 H3. apply (A2 eq_refl). intros id. rewrite H3, Fa. auto. }
  assert (HP : forall s3, payments s3 = payments s2 ->
               Import_file Import_payment (payments_dump dir) s3
               = (Ok tt, s3)).
  { intros s3 H3. apply (P2 eq_refl). intros id. rewrite H3. auto. }
  destruct (Import_file Import_favorite (favorites_dump dir) s2)
    as [[[]|e|p] s3] eqn:E3; cbn [fst snd] in *;
    rewrite (HA s3 Ga), (HP s3 Gp), F1; reflexivity.
Qed.

Lemma with_accounts_same (s : Service) : with_accounts (accounts s ++ []) s = s.
Proof. destruct s. unfold with_accounts. cbn. now rewrite app_nil_r. Qed.

(** What the legacy import appends is read off the file alone. *)
Lemma ImportFromFile_appends (recs : list string) :
  exists (l : list Account.t) (o : outcome unit),
    (o = Ok tt -> List.length l = List.length recs) /\
    forall s,
      for_each ImportFromFile_record recs s
      = (o, with_accounts (accounts s ++ l) s).
Proof.
  induction recs as [|r rest (l & o & Hlen & IH)].
  - exists [], (Ok tt). split; [reflexivity|].
    intros s. cbn [for_each]. now rewrite with_accounts_same.
  - cbn [for_each]. unfold ImportFromFile_record.
    destruct (bind (index _ 0) _) as [account|e|p].
    + exists (account :: l), o. split.
      * intros Ho. cbn [List.length]. now rewrite Hlen.
      * intros s. rewrite IH. unfold with_accounts.
        cbn [accounts nextAccountID payments favorites].
        now rewrite <- app_assoc.
    + exists [], (Err e). split; [discriminate|].
      intros s. now rewrite with_accounts_same.
    + exists [], (Panic p). split; [discriminate|].
      intros s. now rewrite with_accounts_same.
Qed.

(** C9.  A second [Import] of the same directory on the state the first one
    left changes nothing and ends as the first one did.  A second
    [ImportFromFile] of the same file appends once more the accounts the
    first one appended, one per record of the file when the import
    succeeds. *)
Theorem reimport (dir : Dir) (file : string) (s : Service) :
  Import dir (snd (Import dir s)) = (fst (Import dir s), snd (Import dir s)) /\
  exists l : list Account.t,
    let s1 := snd (ImportFromFile (Some file) s) in
    let s2 := snd (ImportFromFile (Some file) s1) in
    accounts s1 = accounts s ++ l /\
    accounts s2 = (accounts s ++ l) ++ l /\
    (fst (ImportFromFile (Some file) s) = Ok tt ->
     List.length l = List.length (records bar file)).
Proof.
  split.
  - rewrite Import_again. now destruct (Import dir s).
  - cbn [ImportFromFile].
    destruct (ImportFromFile_appends (records bar file))
      as (l & o & Hlen & H).
    exists l. cbn zeta. rewrite !H. cbn [fst snd accounts with_accounts].
    repeat split. exact Hlen.
Qed.

Lemma reimport_witness :
  Import dir_demo (snd (Import dir_demo fresh)) = Import dir_demo fresh /\
  accounts (snd (ImportFromFile (Some "1;79000000001;8000|")
                   (snd (ImportFromFile (Some "1;79000000001;8000|") fresh))))
  = [Account.mk 1 "79000000001" 8000; Account.mk 1 "79000000001" 8000].
Proof.
  destruct (reimport dir_demo "1;79000000001;8000|" fresh)
    as (HI & l & H1 & H2 & Hlen).
  split.
  - rewrite HI. reflexivity.
  - rewrite H2. vm_compute in H1. rewrite <- H1. reflexivity.
Defined.

(** ** Export, then import *)

Lemma contains_app (c : ascii) (x y : string) :
  contains c (x ++ y)%string = contains c x || contains c y.
Proof.
  induction x as [|a x IH]; cbn [contains String.append]; [reflexivity|].
  now rewrite IH, orb_assoc.
Qed.

Lemma TrimSuffix_app (x : string) (c : ascii) :
  TrimSuffix (x ++ String c "")%string c = x.
Proof.
  induction x as [|a x IH]; cbn [String.append TrimSuffix].
  - now rewrite Ascii.eqb_refl.
  - rewrite IH. destruct x; reflexivity.
Qed.

Lemma Split_clean (x : string) (sep : ascii) :
  contains sep x = false -> Split x sep = [x].
Proof.
  induction x as [|a x IH]; cbn [contains Split]; [reflexivity|].
  intros H. apply orb_false_iff in H as [Ha Hx].
  now rewrite Ha, (IH Hx).
Qed.

Lemma Split_app (x y : string) (sep : ascii) :
  contains sep x = false ->
  Split (x ++ String sep y)%string sep = x :: Split y sep.
Proof.
  induction x as [|a x IH]; cbn [contains String.append Split].
  - intros _. now rewrite Ascii.eqb_refl.
  - intros H. apply orb_false_iff in H as [Ha Hx].
    now rewrite Ha, (IH Hx).
Qed.

(** [records] lists what the reading loop sees: each successful
    [ReadString] returns the head of the list and leaves the input of the
    tail, and [io.EOF] ends the list, with the unfinished text dropped. *)
Lemma records_ReadString (delim : ascii) (input : string) :
  match ReadString delim input with
  | (data, Some rest) => records delim input = data :: records delim rest
  | (_, None) => records delim input = []
  end.
Proof.
  induction input as [|c r IH]; cbn [ReadString records]; [reflexivity|].
  destruct (Ascii.eqb c delim); [reflexivity|].
  destruct (ReadString delim r) as [data [rest|]]; now rewrite IH.
Qed.

Lemma records_app (delim : ascii) (x rest : string) :
  contains delim x = false ->
  records delim (x ++ String delim rest)%string
  = (x ++ String delim "")%string :: records delim rest.
Proof.
  induction x as [|a x IH]; cbn [contains String.append records].
  - intros _. now rewrite Ascii.eqb_refl.
  - intros H. apply orb_false_iff in H as [Ha Hx].
    now rewrite Ha, (IH Hx).
Qed.

Lemma append_assoc (x y z : string) :
  ((x ++ y) ++ z = x ++ (y ++ z))%string.
Proof.
  induction x as [|a x IH]; cbn [String.append]; [reflexivity|].
  now rewrite IH.
Qed.

Lemma append_empty_r (x : string) : (x ++ "")%string = x.
Proof.
  induction x as [|a x IH]; cbn [String.append]; [reflexivity|].
  now rewrite IH.
Qed.

Lemma concat_cons (x : string) (l : list string) :
  String.concat "" (x :: l) = (x ++ String.concat "" l)%string.
Proof.
  destruct l as [|y l]; cbn [String.concat String.append].
  - now rewrite append_empty_r.
  - reflexivity.
Qed.

(** The lines written for a collection are the records read back, when no
    line has a newline before its end. *)
Lemma records_concat {A : Type} (text : A -> string) (l : list A) :
  Forall (fun x => contains newline (text x) = false) l ->
  records newline (String.concat "" (map (fun x => ln (text x)) l))
  = map (fun x => ln (text x)) l.
Proof.
  induction 1 as [|x l Hx Hl IH]; [reflexivity|].
  cbn [map]. rewrite concat_cons. unfold ln at 1.
  rewrite append_assoc. cbn [String.append].
  rewrite records_app by exact Hx. now rewrite IH.
Qed.

Lemma digit_of_digit_char (d : Z) :
  0 <= d <= 9 -> digit_of (digit_char d) = Some d.
Proof.
  intros H.
  assert (E : d = 0 \/ d = 1 \/ d = 2 \/ d = 3 \/ d = 4 \/ d = 5 \/ d = 6 \/
              d = 7 \/ d = 8 \/ d = 9) by lia.
  repeat (destruct E as [->|E]; [reflexivity|]). subst d. reflexivity.
Qed.

Lemma mod10_digit (u : Z) : 0 <= u mod 10 <= 9.
Proof. pose proof (Z.mod_pos_bound u 10). lia. Qed.

(** Reading back the digits [format_digits] wrote in front of [acc] shifts
    the value read so far by as many decimal places and adds [u]. *)
Lemma ParseUint_loop_format_digits (fuel : nat) :
  forall (u : Z) (acc : string),
    0 <= u < 10 ^ Z.of_nat fuel ->
    exists k : Z,
      0 <= k /\
      forall (s0 : string) (n : Z),
        0 <= n -> n * 10 ^ k + u < 2 ^ 64 ->
        ParseUint_loop s0 n (format_digits fuel u acc)
        = ParseUint_loop s0 (n * 10 ^ k + u) acc.
Proof.
  induction fuel as [|fuel IH]; intros u acc Hu.
  - exists 0. split; [lia|]. intros s0 n Hn _. cbn [format_digits].
    f_equal. change (10 ^ Z.of_nat 0) with 1 in Hu. rewrite Z.pow_0_r. lia.
  - cbn [format_digits]. destruct (u <? 10) eqn:E.
    + apply Z.ltb_lt in E. exists 1. split; [lia|].
      intros s0 n Hn Hlt. cbn [ParseUint_loop].
      rewrite Z.mod_small by lia.
      rewrite digit_of_digit_char by lia.
      rewrite Z.pow_1_r in *.
      replace (10 * n + u) with (n * 10 + u) by lia.
      destruct (2 ^ 64 <=? n * 10 + u) eqn:E2; [|reflexivity].
      apply Z.leb_le in E2. lia.
    + apply Z.ltb_ge in E.
      rewrite Nat2Z.inj_succ, Z.pow_succ_r in Hu by lia.
      pose proof (Z.div_mod u 10 ltac:(lia)) as Hdm.
      pose proof (mod10_digit u) as Hmod.
      destruct (IH (u / 10) (String (digit_char (u mod 10)) acc))
        as (k & Hk & Hloop).
      { split; [apply Z.div_pos; lia|].
        apply Z.div_lt_upper_bound; lia. }
      exists (k + 1). split; [lia|]. intros s0 n Hn Hlt.
      assert (Hpk : n * 10 ^ (k + 1) = n * 10 ^ k * 10).
      { rewrite Z.pow_add_r, Z.pow_1_r by lia. lia. }
      rewrite Hpk in *. specialize (Hloop s0 n Hn).
      assert (Hp : 0 < 10 ^ k) by (apply Z.pow_pos_nonneg; lia).
      set (m := n * 10 ^ k) in *.
      assert (Hm : 0 <= m) by (apply Z.mul_nonneg_nonneg; lia).
      rewrite Hloop by lia. cbn [ParseUint_loop].
      rewrite digit_of_digit_char by exact Hmod.
      replace (10 * (m + u / 10) + u mod 10) with (m * 10 + u) by lia.
      destruct (2 ^ 64 <=? m * 10 + u) eqn:E2; [|reflexivity].
      apply Z.leb_le in E2. lia.
Qed.

Lemma format_digits_head (fuel : nat) :
  forall (u : Z) (acc : string),
    exists (c : ascii) (r : string) (d : Z),
      format_digits (S fuel) u acc = String c r /\ digit_of c = Some d.
Proof.
  induction fuel as [|fuel IH]; intros u acc.
  - exists (digit_char (u mod 10)), acc, (u mod 10).
    split; [|apply digit_of_digit_char, mod10_digit].
    cbn [format_digits]. now destruct (u <? 10).
  - change (format_digits (S (S fuel)) u acc)
      with (let acc' := String (digit_char (u mod 10)) acc in
            if u <? 10 then acc' else format_digits (S fuel) (u / 10) acc').
    cbn zeta. destruct (u <? 10).
    + exists (digit_char (u mod 10)), acc, (u mod 10).
      split; [reflexivity|apply digit_of_digit_char, mod10_digit].
    + apply IH.
Qed.

Lemma format_digits_contains (c : ascii) (fuel : nat) :
  forall (u : Z) (acc : string),
    digit_of c = None ->
    contains c (format_digits fuel u acc) = contains c acc.
Proof.
  induction fuel as [|fuel IH]; intros u acc Hc; [reflexivity|].
  assert (Hne : Ascii.eqb (digit_char (u mod 10)) c = false).
  { apply Ascii.eqb_neq. intros <-.
    rewrite digit_of_digit_char in Hc by apply mod10_digit. discriminate. }
  cbn [format_digits]. destruct (u <? 10).
  - cbn [contains]. now rewrite Hne.
  - rewrite IH by exact Hc. cbn [contains]. now rewrite Hne.
Qed.

(** A decimal number has no byte of the dump syntax in it. *)
Lemma FormatInt_contains (c : ascii) (i : Z) :
  digit_of c = None -> c <> "-"%char -> contains c (FormatInt i) = false.
Proof.
  intros Hc Hminus. unfold FormatInt. destruct (i <? 0).
  - cbn [contains]. rewrite format_digits_contains by exact Hc.
    cbn [contains]. rewrite orb_false_r. apply Ascii.eqb_neq. congruence.
  - now rewrite format_digits_contains by exact Hc.
Qed.

(** [Atoi] reads back what [FormatInt] wrote. *)
Lemma Atoi_FormatInt (i : Z) : int64 i -> Atoi (FormatInt i) = Ok i.
Proof.
  unfold int64, min_int64, max_int64. intros Hi.
  assert (Hpow : 2 ^ 64 < 10 ^ Z.of_nat 20) by (vm_compute; reflexivity).
  unfold FormatInt. destruct (i <? 0) eqn:Eneg.
  - apply Z.ltb_lt in Eneg.
    destruct (format_digits_head 19 (- i) "") as (c & r & d & Hhead & Hd).
    destruct (ParseUint_loop_format_digits 20 (- i) "") as (k & Hk & Hloop);
      [lia|].
    specialize (Hloop (String "-" (format_digits 20 (- i) "")) 0).
    rewrite Z.mul_0_l, Z.add_0_l in Hloop.
    specialize (Hloop ltac:(lia) ltac:(lia)).
    unfold Atoi. cbn [Ascii.eqb Bool.eqb orb]. rewrite Hhead in *.
    rewrite Hloop. cbn [ParseUint_loop bind negb andb].
    destruct (2 ^ 63 <? - i) eqn:E; [apply Z.ltb_lt in E; lia|].
    f_equal. lia.
  - apply Z.ltb_ge in Eneg.
    destruct (format_digits_head 19 i "") as (c & r & d & Hhead & Hd).
    destruct (ParseUint_loop_format_digits 20 i "") as (k & Hk & Hloop);
      [lia|].
    specialize (Hloop (format_digits 20 i "") 0).
    rewrite Z.mul_0_l, Z.add_0_l in Hloop.
    specialize (Hloop ltac:(lia) ltac:(lia)).
    unfold Atoi. rewrite Hhead in *.
    assert (Hm : Ascii.eqb c "-" = false).
    { apply Ascii.eqb_neq. intros ->. discriminate. }
    assert (Hp : Ascii.eqb c "+" = false).
    { apply Ascii.eqb_neq. intros ->. discriminate. }
    rewrite Hm, Hp. cbn [orb]. rewrite Hloop.
    cbn [ParseUint_loop bind negb andb].
    destruct (2 ^ 63 <=? i) eqn:E; [apply Z.leb_le in E; lia|].
    reflexivity.
Qed.

Lemma clean_spec (x : string) :
  clean x = true ->
  contains semicolon x = false /\ contains newline x = false.
Proof.
  unfold clean. intros H. apply andb_true_iff in H as [H1 H2].
  now apply negb_true_iff in H1, H2.
Qed.

Lemma FormatInt_semicolon (i : Z) : contains semicolon (FormatInt i) = false.
Proof. apply FormatInt_contains; [reflexivity|discriminate]. Qed.

Lemma FormatInt_newline (i : Z) : contains newline (FormatInt i) = false.
Proof. apply FormatInt_contains; [reflexivity|discriminate]. Qed.

Ltac fields_clean :=
  repeat match goal with
         | H : clean _ = true |- _ => apply clean_spec in H as [? ?]
         end.

Lemma account_fields_Split (a : Account.t) :
  account_dumpable a ->
  Split (TrimSuffix (account_line a) newline) semicolon
  = [FormatInt (Account.ID a); Account.Phone a;
     FormatInt (Account.Balance a)] /\
  contains newline (account_fields a) = false.
Proof.
  intros (Hid & Hb & Hph). fields_clean.
  unfold account_line, ln. rewrite TrimSuffix_app. unfold account_fields.
  cbn [String.append]. split.
  - rewrite Split_app by apply FormatInt_semicolon.
    rewrite Split_app by assumption.
    now rewrite Split_clean by apply FormatInt_semicolon.
  - rewrite !contains_app. cbn [contains]. rewrite !contains_app.
    cbn [contains]. rewrite !FormatInt_newline.
    now repeat match goal with H : contains _ _ = false |- _ =>
                                rewrite H; clear H end.
Qed.

Ltac no_newline :=
  repeat (rewrite contains_app || rewrite FormatInt_newline
          || (progress (cbn [contains])));
  repeat match goal with
         | H : contains newline _ = false |- _ => rewrite H; clear H
         end;
  reflexivity.

Lemma payment_fields_Split (p : Payment.t) :
  payment_dumpable p ->
  Split (TrimSuffix (payment_line p) newline) semicolon
  = [Payment.ID p; FormatInt (Payment.AccountID p);
     FormatInt (Payment.Amount p); Payment.Category p; Payment.Status p] /\
  contains newline (payment_fields p) = false.
Proof.
  intros (Hid & Ha & Hm & Hc & Hs). fields_clean.
  unfold payment_line, ln. rewrite TrimSuffix_app. unfold payment_fields.
  cbn [String.append]. split.
  - rewrite Split_app by assumption.
    rewrite Split_app by apply FormatInt_semicolon.
    rewrite Split_app by apply FormatInt_semicolon.
    rewrite Split_app by assumption.
    now rewrite Split_clean by assumption.
  - no_newline.
Qed.

Lemma favorite_fields_Split (f : Favorite.t) :
  favorite_dumpable f ->
  Split (TrimSuffix (favorite_line f) newline) semicolon
  = [Favorite.ID f; FormatInt (Favorite.AccountID f); Favorite.Name f;
     FormatInt (Favorite.Amount f); Favorite.Category f] /\
  contains newline (favorite_fields f) = false.
Proof.
  intros (Hid & Ha & Hn & Hm & Hc). fields_clean.
  unfold favorite_line, ln. rewrite TrimSuffix_app. unfold favorite_fields.
  cbn [String.append]. split.
  - rewrite Split_app by assumption.
    rewrite Split_app by apply FormatInt_semicolon.
    rewrite Split_app by assumption.
    rewrite Split_app by apply FormatInt_semicolon.
    now rewrite Split_clean by assumption.
  - no_newline.
Qed.

(** The import of a line that [Export] wrote for an entry whose ID the
    service does not hold appends the entry. *)
Lemma Import_account_line (a : Account.t) (s : Service) :
  account_dumpable a ->
  find (is_account (Account.ID a)) (accounts s) = None ->
  Import_account (account_line a) s
  = (Ok tt,
     with_nextAccountID (Account.ID a)
       (with_accounts (accounts s ++ [a]) s)).
Proof.
  intros Hd Hnew. destruct (account_fields_Split a Hd) as [HS _].
  destruct Hd as (Hid & Hb & _).
  unfold Import_account, FindAccountByID. rewrite HS.
  cbn [index nth_error bind].
  rewrite (Atoi_FormatInt _ Hid), (Atoi_FormatInt _ Hb). cbn [bind].
  rewrite Hnew. now destruct a.
Qed.

Lemma Import_payment_line (p : Payment.t) (s : Service) :
  payment_dumpable p ->
  find (is_payment (Payment.ID p)) (payments s) = None ->
  Import_payment (payment_line p) s
  = (Ok tt, with_payments (payments s ++ [p]) s).
Proof.
  intros Hd Hnew. destruct (payment_fields_Split p Hd) as [HS _].
  destruct Hd as (_ & Ha & Hm & _).
  unfold Import_payment, FindPaymentByID. rewrite HS.
  cbn [index nth_error bind].
  rewrite (Atoi_FormatInt _ Ha), (Atoi_FormatInt _ Hm). cbn [bind].
  rewrite Hnew. now destruct p.
Qed.

Lemma Import_favorite_line (f : Favorite.t) (s : Service) :
  favorite_dumpable f ->
  find (is_favorite (Favorite.ID f)) (favorites s) = None ->
  Import_favorite (favorite_line f) s
  = (Ok tt, with_favorites (favorites s ++ [f]) s).
Proof.
  intros Hd Hnew. destruct (favorite_fields_Split f Hd) as [HS _].
  destruct Hd as (_ & Ha & _ & Hm & _).
  unfold Import_favorite, FindFavoriteByID. rewrite HS.
  cbn [index nth_error bind].
  rewrite (Atoi_FormatInt _ Ha), (Atoi_FormatInt _ Hm). cbn [bind].
  rewrite Hnew. now destruct f.
Qed.

Lemma find_snoc_other {A : Type} (hit : A -> bool) (l : list A) (x : A) :
  find hit l = None -> hit x = false -> find hit (l ++ [x]) = None.
Proof. intros Hl Hx. now rewrite find_app_last, Hl, Hx. Qed.

(** The loops of [Import] over the lines of entries with new, pairwise
    different IDs append the entries in order. *)
Lemma import_accounts (l : list Account.t) :
  forall s,
    Forall account_dumpable l -> NoDup (map Account.ID l) ->
    (forall a, In a l -> find (is_account (Account.ID a)) (accounts s) = None) ->
    for_each Import_account (map account_line l) s
    = (Ok tt,
       mkService (fold_left (fun _ a => Account.ID a) l (nextAccountID s))
         (accounts s ++ l) (payments s) (favorites s)).
Proof.
  induction l as [|a l IH]; intros s Hd Hnd Hnew.
  - cbn [map for_each fold_left]. rewrite app_nil_r. now destruct s.
  - inversion Hd as [|? ? Hda Hdl]; subst.
    cbn [map] in Hnd. inversion Hnd as [|? ? Hnotin Hndl]; subst.
    cbn [map for_each].
    rewrite Import_account_line by (auto using in_eq).
    rewrite IH; [| exact Hdl | exact Hndl | ].
    + cbn [fold_left nextAccountID accounts payments favorites
             with_accounts with_nextAccountID].
      now rewrite <- app_assoc.
    + intros b Hb. cbn [accounts with_accounts with_nextAccountID].
      apply find_snoc_other; [apply Hnew; now right|].
      apply Z.eqb_neq. intros Heq. apply Hnotin.
      rewrite Heq. now apply in_map.
Qed.

Lemma import_payments (l : list Payment.t) :
  forall s,
    Forall payment_dumpable l -> NoDup (map Payment.ID l) ->
    (forall p, In p l -> find (is_payment (Payment.ID p)) (payments s) = None) ->
    for_each Import_payment (map payment_line l) s
    = (Ok tt, with_payments (payments s ++ l) s).
Proof.
  induction l as [|p l IH]; intros s Hd Hnd Hnew.
  - cbn [map for_each]. rewrite app_nil_r. now destruct s.
  - inversion Hd as [|? ? Hdp Hdl]; subst.
    cbn [map] in Hnd. inversion Hnd as [|? ? Hnotin Hndl]; subst.
    cbn [map for_each].
    rewrite Import_payment_line by (auto using in_eq).
    rewrite IH; [| exact Hdl | exact Hndl | ].
    + unfold with_payments.
      cbn [nextAccountID accounts payments favorites].
      now rewrite <- app_assoc.
    + intros b Hb. cbn [payments with_payments].
      apply find_snoc_other; [apply Hnew; now right|].
      apply String.eqb_neq. intros Heq. apply Hnotin.
      rewrite Heq. now apply in_map.
Qed.

Lemma import_favorites (l : list Favorite.t) :
  forall s,
    Forall favorite_dumpable l -> NoDup (map Favorite.ID l) ->
    (forall f, In f l ->
     find (is_favorite (Favorite.ID f)) (favorites s) = None) ->
    for_each Import_favorite (map favorite_line l) s
    = (Ok tt, with_favorites (favorites s ++ l) s).
Proof.
  induction l as [|f l IH]; intros s Hd Hnd Hnew.
  - cbn [map for_each]. rewrite app_nil_r. now destruct s.
  - inversion Hd as [|? ? Hdf Hdl]; subst.
    cbn [map] in Hnd. inversion Hnd as [|? ? Hnotin Hndl]; subst.
    cbn [map for_each].
    rewrite Import_favorite_line by (auto using in_eq).
    rewrite IH; [| exact Hdl | exact Hndl | ].
    + unfold with_favorites.
      cbn [nextAccountID accounts payments favorites].
      now rewrite <- app_assoc.
    + intros b Hb. cbn [favorites with_favorites].
      apply find_snoc_other; [apply Hnew; now right|].
      apply String.eqb_neq. intros Heq. apply Hnotin.
      rewrite Heq. now apply in_map.
Qed.

Lemma Import_file_dump_file {A : Type}
    (body : string -> Service -> outcome unit * Service)
    (text : A -> string) (l : list A) (s : Service) :
  Forall (fun x => contains newline (text x) = false) l ->
  Import_file body (dump_file (fun x => ln (text x)) l None) s
  = for_each body (map (fun x => ln (text x)) l) s.
Proof.
  intros H. destruct l as [|x l]; [reflexivity|].
  cbn [dump_file Import_file]. now rewrite records_concat.
Qed.

(** Where the counter stands after the import of a list of new accounts,
    when their IDs increase along the list. *)
Lemma counter_after_sorted (l : list Account.t) :
  forall d,
    StronglySorted Z.lt (d :: map Account.ID l) ->
    let n := fold_left (fun _ a => Account.ID a) l d in
    In n (d :: map Account.ID l) /\ d <= n /\
    Forall (fun a => Account.ID a <= n) l.
Proof.
  induction l as [|a l IH]; intros d Hs; cbn [fold_left map].
  - split; [now left|]. split; [lia|constructor].
  - inversion Hs as [|? ? Htail Hhead]; subst.
    cbn [map] in Hhead. inversion Hhead as [|? ? Hlt _]; subst.
    destruct (IH (Account.ID a) Htail) as (Hin & Hle & Hall).
    split; [now right|]. split; [lia|].
    constructor; [exact Hle|exact Hall].
Qed.

(** C6, as the code has it.  For a state whose numbers are [int64] values,
    whose texts hold no [;] and no newline, and in which no ID occurs twice
    in a collection, [Export] into a directory without dump files followed
    by [Import] into a fresh service succeeds and rebuilds the accounts, the
    payments and the favorites, field by field and in order.  When moreover
    the account IDs increase along the list and stay below the largest
    [int64], the next [RegisterAccount] of an unregistered phone returns an
    account whose ID no imported account has. *)
Theorem Export_Import_roundtrip (s : Service) :
  dumpable s ->
  exists s',
    Import (Export empty_dir s) fresh = (Ok tt, s') /\
    accounts s' = accounts s /\
    payments s' = payments s /\
    favorites s' = favorites s /\
    (StronglySorted Z.lt (map Account.ID (accounts s)) ->
     Forall (fun a => Account.ID a < max_int64) (accounts s) ->
     forall phone,
       (forall a, In a (accounts s) -> Account.Phone a <> phone) ->
       exists account s'',
         RegisterAccount phone s' = (Ok account, s'') /\
         forall a, In a (accounts s') -> Account.ID a <> Account.ID account).
Proof.
  intros (Hda & Hdp & Hdf & Hna & Hnp & Hnf).
  set (n := fold_left (fun _ a => Account.ID a) (accounts s) 0).
  exists (mkService n (accounts s) (payments s) (favorites s)).
  assert (HI : Import (Export empty_dir s) fresh
               = (Ok tt, mkService n (accounts s) (payments s) (favorites s))).
  { unfold Import, Export.
    cbn [accounts_dump payments_dump favorites_dump empty_dir].
    change account_line with (fun a => ln (account_fields a)).
    change payment_line with (fun p => ln (payment_fields p)).
    change favorite_line with (fun f => ln (favorite_fields f)).
    rewrite Import_file_dump_file.
    2:{ eapply Forall_impl; [|exact Hda]. intros a Ha.
        now apply account_fields_Split. }
    change (fun a => ln (account_fields a)) with account_line.
    rewrite import_accounts; [|exact Hda|exact Hna|reflexivity].
    rewrite Import_file_dump_file.
    2:{ eapply Forall_impl; [|exact Hdp]. intros p Hp.
        now apply payment_fields_Split. }
    change (fun p => ln (payment_fields p)) with payment_line.
    rewrite import_payments; [|exact Hdp|exact Hnp|reflexivity].
    rewrite Import_file_dump_file.
    2:{ eapply Forall_impl; [|exact Hdf]. intros f Hf.
        now apply favorite_fields_Split. }
    change (fun f => ln (favorite_fields f)) with favorite_line.
    rewrite import_favorites; [|exact Hdf|exact Hnf|reflexivity].
    reflexivity. }
  split; [exact HI|]. repeat (split; [reflexivity|]).
  intros Hsorted Hbelow phone Hphone.
  pose proof (RegisterAccount_new phone
                (mkService n (accounts s) (payments s) (favorites s))
                Hphone) as Hreg'.
  cbn zeta in Hreg'.
  eexists. eexists. split; [exact Hreg'|].
  cbn [accounts Account.ID nextAccountID].
  assert (Hn : (forall a, In a (accounts s) -> Account.ID a <= n) /\
               min_int64 <= n < max_int64).
  { unfold n. destruct (accounts s) as [|a l] eqn:El.
    - split; [intros a []|]. cbn. unfold min_int64, max_int64. lia.
    - cbn [fold_left]. cbn [map] in Hsorted.
      destruct (counter_after_sorted l (Account.ID a) Hsorted)
        as (Hin & Hle & Hall).
      rewrite Forall_forall in Hall, Hbelow, Hda.
      change (Account.ID a :: map Account.ID l)
        with (map Account.ID (a :: l)) in Hin.
      apply in_map_iff in Hin as (b & Hb & Hbin). rewrite <- Hb.
      split.
      + intros x [<-|Hx]; [rewrite Hb; exact Hle|].
        rewrite Hb. now apply Hall.
      + pose proof (Hbelow b Hbin). destruct (Hda b Hbin) as [[? ?] _].
        lia. }
  destruct Hn as [Hmax Hrange].
  intros a Ha. specialize (Hmax a Ha).
  unfold add64. rewrite wrap64_small.
  - lia.
  - unfold int64, min_int64, max_int64 in *. lia.
Qed.

Lemma s_ledger_dumpable : dumpable s_ledger.
Proof.
  unfold dumpable, account_dumpable, payment_dumpable, favorite_dumpable,
    int64, min_int64, max_int64.
  cbn [s_ledger accounts payments favorites map Account.ID Payment.ID
         Favorite.ID].
  repeat split; repeat constructor; cbn; try lia; try tauto;
    try (intros [H|H]; [discriminate H|exact H]).
Defined.

Lemma Export_Import_roundtrip_witness :
  exists s',
    Import (Export empty_dir s_ledger) fresh = (Ok tt, s') /\
    accounts s' = accounts s_ledger /\
    payments s' = payments s_ledger /\
    favorites s' = favorites s_ledger /\
    exists account s'',
      RegisterAccount "79000000003" s' = (Ok account, s'') /\
      forall a, In a (accounts s') -> Account.ID a <> Account.ID account.
Proof.
  destruct (Export_Import_roundtrip s_ledger s_ledger_dumpable)
    as (s' & HI & Ha & Hp & Hf & Hnext).
  exists s'. repeat (split; [assumption|]).
  apply Hnext.
  - cbn. repeat constructor; lia.
  - cbn. unfold max_int64. repeat constructor; cbn; lia.
  - cbn. intros a [<-|[<-|[]]]; discriminate.
Defined.

Example s_unsorted_reached :
  ImportFromFile (Some "2;79000000002;0|1;79000000001;0|") fresh
  = (Ok tt, s_unsorted).
Proof. reflexivity. Qed.

Example s_twins_reached :
  run [OpImportFromFile (Some "1;79000000001;0|");
       OpImportFromFile (Some "1;79000000001;0|")] fresh
  = ([Ok VUnit; Ok VUnit], s_twins).
Proof. reflexivity. Qed.

(** C6, as stated, fails.  After the round trip of [s_unsorted] the counter
    stands at 1, the ID of the account read last, and the next registration
    returns the ID 2, which the first imported account has.  After the round
    trip of [s_twins] one of the two accounts is left. *)
Lemma Export_Import_roundtrip_fails :
  (let s' := snd (Import (Export empty_dir s_unsorted) fresh) in
   accounts s' = accounts s_unsorted /\
   fst (RegisterAccount "79000000003" s')
   = Ok (Account.mk 2 "79000000003" 0) /\
   In (Account.mk 2 "79000000002" 0) (accounts s')) /\
  (let s' := snd (Import (Export empty_dir s_twins) fresh) in
   fst (Import (Export empty_dir s_twins) fresh) = Ok tt /\
   accounts s' = [Account.mk 1 "79000000001" 0] /\
   accounts s' <> accounts s_twins).
Proof.
  split; cbn zeta.
  - split; [reflexivity|]. split; [reflexivity|]. now left.
  - split; [reflexivity|]. split; [reflexivity|]. discriminate.
Qed.

(** * Further properties of the service *)

(** ** Deposits *)

(** X1.  [Deposit] fails with [ErrAmountMustBePositive] when the amount is
    not positive and with [ErrAccountNotFound] when no account has the ID,
    and the state is the same after both failures.  Otherwise it adds the
    amount to the balance of the first account with the ID and to nothing
    else; there is no upper bound: the new balance is the exact sum while
    the sum is an [int64], and the sum less [2^64], a negative balance, once
    it is not. *)
Theorem Deposit_spec (accountID : Z) (amount : Money) (s : Service) :
  (amount <= 0 ->
   Deposit accountID amount s = (Err ErrAmountMustBePositive, s)) /\
  (0 < amount ->
   (forall a, In a (accounts s) -> Account.ID a <> accountID) ->
   Deposit accountID amount s = (Err ErrAccountNotFound, s)) /\
  (forall account, 0 < amount ->
   FindAccountByID accountID s = Ok account ->
   let credited :=
     Account.with_Balance (add64 (Account.Balance account) amount) account in
   exists s',
     Deposit accountID amount s = (Ok tt, s') /\
     accounts s'
     = update_first (is_account accountID) (fun _ => credited) (accounts s) /\
     FindAccountByID accountID s' = Ok credited /\
     (forall id, id <> accountID ->
      FindAccountByID id s' = FindAccountByID id s) /\
     payments s' = payments s /\
     favorites s' = favorites s /\
     nextAccountID s' = nextAccountID s /\
     (int64 (Account.Balance account + amount) ->
      Account.Balance credited = Account.Balance account + amount) /\
     (int64 (Account.Balance account) -> int64 amount ->
      max_int64 < Account.Balance account + amount ->
      Account.Balance credited = Account.Balance account + amount - 2 ^ 64 /\
      Account.Balance credited < 0)).
Proof.
  split; [|split].
  - intros H. unfold Deposit. apply Z.leb_le in H. now rewrite H.
  - intros H Hno. unfold Deposit. apply Z.leb_gt in H. rewrite H.
    assert (E : FindAccountByID accountID s = Err ErrAccountNotFound)
      by (apply FindAccountByID_Err; auto).
    unfold FindAccountByID in E.
    destruct (find _ _); [discriminate|reflexivity].
  - intros account H Hf credited.
    pose proof Hf as Hf'. apply FindAccountByID_Ok in Hf'.
    assert (Hid : forall a : Account.t, Account.ID a = accountID ->
                  Account.ID credited = accountID).
    { intros _ _. simpl. now apply FindAccountByID_ID in Hf. }
    destruct (FindAccountByID_update accountID (fun _ => credited) s account
                Hid Hf) as [Hsame Hother].
    eexists. split.
    { unfold Deposit. apply Z.leb_gt in H. rewrite H, Hf'.
      rewrite (update_first_ext (is_account accountID) _ (fun _ => credited)
                 (accounts s) account Hf') by reflexivity.
      reflexivity. }
    split; [reflexivity|]. split; [exact Hsame|]. split; [exact Hother|].
    split; [reflexivity|]. split; [reflexivity|]. split; [reflexivity|].
    cbn [credited Account.Balance Account.with_Balance]. unfold add64. split.
    + apply wrap64_small.
    + intros Hb Ha Hover. unfold int64, min_int64, max_int64 in *.
      clear - Hb Ha Hover H. rewrite wrap64_above.
      * lia.
      * unfold min_int64, max_int64. lia.
Qed.

Lemma Deposit_spec_witness :
  Deposit 1 0 s_one = (Err ErrAmountMustBePositive, s_one) /\
  Deposit 7 5 s_one = (Err ErrAccountNotFound, s_one) /\
  exists s',
    Deposit 1 5 s_one = (Ok tt, s') /\
    FindAccountByID 1 s' = Ok (Account.mk 1 "79000000001" 10005).
Proof.
  split; [|split].
  - apply (Deposit_spec 1 0 s_one). lia.
  - apply (Deposit_spec 7 5 s_one); [lia|].
    simpl. intros a [<-|[]]. simpl. lia.
  - destruct (proj2 (proj2 (Deposit_spec 1 5 s_one))
                (Account.mk 1 "79000000001" 10000))
      as (s' & HD & _ & HF & _); [lia | reflexivity | ].
    exists s'. split; [exact HD | exact HF].
Defined.

(** ** Favorites *)

Lemma FindFavoriteByID_appended (favorite : Favorite.t) (s s' : Service) :
  favorites s' = favorites s ++ [favorite] ->
  (forall f, In f (favorites s) -> Favorite.ID f <> Favorite.ID favorite) ->
  FindFavoriteByID (Favorite.ID favorite) s' = Ok favorite.
Proof.
  intros Hf Hfresh. apply FindFavoriteByID_Ok. rewrite Hf, find_app_last.
  assert (E : find (is_favorite (Favorite.ID favorite)) (favorites s) = None).
  { apply find_none_iff. intros x Hx. unfold is_favorite.
    apply String.eqb_neq. now apply Hfresh. }
  rewrite E. unfold is_favorite. now rewrite String.eqb_refl.
Qed.

(** X2.  [FavoritePayment] fails with [ErrPaymentNotFound] and changes
    nothing when no payment has the ID.  Otherwise it appends and returns a
    favorite made of the drawn identifier, the name and the account, amount
    and category of the payment, and touches nothing else; a draw that is the
    ID of no earlier favorite is the ID under which the new one is found. *)
Theorem FavoritePayment_spec (uid paymentID name : string) (s : Service) :
  ((forall p, In p (payments s) -> Payment.ID p <> paymentID) ->
   FavoritePayment uid paymentID name s = (Err ErrPaymentNotFound, s)) /\
  (forall payment, FindPaymentByID paymentID s = Ok payment ->
   let favorite :=
     Favorite.mk uid (Payment.AccountID payment) name
       (Payment.Amount payment) (Payment.Category payment) in
   let s' := with_favorites (favorites s ++ [favorite]) s in
   FavoritePayment uid paymentID name s = (Ok favorite, s') /\
   ((forall f, In f (favorites s) -> Favorite.ID f <> uid) ->
    FindFavoriteByID uid s' = Ok favorite)).
Proof.
  split.
  - intros Hno. unfold FavoritePayment.
    assert (E : FindPaymentByID paymentID s = Err ErrPaymentNotFound)
      by (apply FindPaymentByID_Err; auto).
    now rewrite E.
  - intros payment Hp favorite s'. split.
    + unfold FavoritePayment. now rewrite Hp.
    + intros Hfresh.
      apply (FindFavoriteByID_appended favorite s s'); [reflexivity|].
      exact Hfresh.
Qed.

Lemma FavoritePayment_spec_witness :
  FavoritePayment "f1" "zz" "lunch" s_paid = (Err ErrPaymentNotFound, s_paid) /\
  FavoritePayment "f1" "u1" "lunch" s_paid
  = (Ok (Favorite.mk "f1" 1 "lunch" 2000 "food"),
     with_favorites [Favorite.mk "f1" 1 "lunch" 2000 "food"] s_paid).
Proof.
  split.
  - apply (FavoritePayment_spec "f1" "zz" "lunch" s_paid).
    simpl. intros p [<-|[]]. simpl. discriminate.
  - apply (proj2 (FavoritePayment_spec "f1" "u1" "lunch" s_paid)
             (Payment.mk "u1" 1 2000 "food" PaymentStatusInProgress)
             eq_refl).
Defined.



(** ** A payment, then its rejection *)

(** X4.  Rejecting a payment right after it was made gives the money back:
    for a balance that is an [int64], a successful [Pay] followed by
    [Reject] of the payment it returned leaves the accounts exactly as they
    were before the payment, and the payment stays in the list with status
    [FAIL]. *)
Theorem Reject_after_Pay (uid : string) (accountID : Z) (amount : Money)
    (category : PaymentCategory) (s : Service) (account : Account.t) :
  0 < amount ->
  FindAccountByID accountID s = Ok account ->
  amount <= Account.Balance account ->
  int64 (Account.Balance account) ->
  (forall p, In p (payments s) -> Payment.ID p <> uid) ->
  exists payment s1 s2,
    Pay uid accountID amount category s = (Ok payment, s1) /\
    Reject (Payment.ID payment) s1 = (Ok tt, s2) /\
    accounts s2 = accounts s /\
    payments s2
    = payments s
      ++ [Payment.mk uid accountID amount category PaymentStatusFail] /\
    favorites s2 = favorites s /\
    nextAccountID s2 = nextAccountID s.
Proof.
  intros Hpos Hf Hle Hb Hfresh.
  destruct (Pay_success uid accountID amount category s account Hpos Hf Hle)
    as (HP & HA & _ & HF).
  specialize (HF Hfresh).
  set (payment :=
         Payment.mk uid accountID amount category PaymentStatusInProgress)
    in *.
  set (debited :=
         Account.with_Balance (sub64 (Account.Balance account) amount)
           account) in *.
  set (s1 := with_payments (payments s ++ [payment])
               (with_accounts
                  (update_first (is_account accountID) (fun _ => debited)
                     (accounts s)) s)) in *.
  destruct (Reject_found uid s1 payment debited HF HA) as (HR & _).
  exists payment, s1, (rejected uid payment s1).
  split; [exact HP|]. split; [exact HR|].
  pose proof Hf as Hf'. apply FindAccountByID_Ok in Hf'.
  split; [|split; [|split; reflexivity]].
  - cbn [rejected accounts with_accounts with_payments s1 payment
           Payment.AccountID Payment.Amount].
    rewrite update_first_twice
      by (intros x _; apply is_account_true;
          now apply FindAccountByID_ID in Hf).
    apply update_first_same with (x := account); [exact Hf'|].
    cbn [debited Account.Balance Account.with_Balance Account.ID
           Account.Phone].
    unfold add64, sub64. rewrite wrap64_add_l.
    replace (Account.Balance account - amount + amount)
      with (Account.Balance account) by lia.
    rewrite (wrap64_small _ Hb). now destruct account.
  - cbn [rejected payments with_accounts with_payments s1].
    rewrite update_first_last; [reflexivity| |apply String.eqb_refl].
    apply find_none_iff. intros x Hx. unfold is_payment.
    apply String.eqb_neq. now apply Hfresh.
Qed.

Lemma Reject_after_Pay_witness :
  exists payment s1 s2,
    Pay "u1" 1 2000 "food" s_one = (Ok payment, s1) /\
    Reject (Payment.ID payment) s1 = (Ok tt, s2) /\
    accounts s2 = [Account.mk 1 "79000000001" 10000].
Proof.
  destruct (Reject_after_Pay "u1" 1 2000 "food" s_one
              (Account.mk 1 "79000000001" 10000))
    as (payment & s1 & s2 & H1 & H2 & H3 & _).
  - lia.
  - reflexivity.
  - simpl. lia.
  - unfold int64, min_int64, max_int64. simpl. lia.
  - simpl. intros p [].
  - exists payment, s1, s2. repeat split; assumption.
Defined.

(** ** Lookups *)

Lemma find_first {A : Type} (hit : A -> bool) (l : list A) (x : A) :
  find hit l = Some x <->
  exists l1 l2,
    l = l1 ++ x :: l2 /\ hit x = true /\ forall y, In y l1 -> hit y = false.
Proof.
  split.
  - induction l as [|y l IH]; cbn [find]; [discriminate|].
    destruct (hit y) eqn:E.
    + intros H. injection H as ->. exists [], l. repeat split; auto.
      intros z [].
    + intros H. destruct (IH H) as (l1 & l2 & -> & Hx & Hl1).
      exists (y :: l1), l2. repeat split; auto.
      intros z [<-|Hz]; auto.
  - intros (l1 & l2 & -> & Hx & Hl1).
    induction l1 as [|y l1 IH]; cbn [find app].
    + now rewrite Hx.
    + rewrite (Hl1 y (or_introl eq_refl)). apply IH.
      intros z Hz. apply Hl1. now right.
Qed.

(** X5.  The three lookups return the first entry that has the ID, which
    matters once an ID occurs twice: [FindAccountByID] returns [a] exactly
    when [a] has the ID and no account before it in the list has it, and
    fails with [ErrAccountNotFound] exactly when no account has it; likewise
    [FindPaymentByID] and [FindFavoriteByID]. *)
Theorem lookups_first_match (s : Service) :
  (forall id a,
     FindAccountByID id s = Ok a <->
     exists l1 l2,
       accounts s = l1 ++ a :: l2 /\ Account.ID a = id /\
       forall b, In b l1 -> Account.ID b <> id) /\
  (forall id,
     FindAccountByID id s = Err ErrAccountNotFound <->
     forall a, In a (accounts s) -> Account.ID a <> id) /\
  (forall id p,
     FindPaymentByID id s = Ok p <->
     exists l1 l2,
       payments s = l1 ++ p :: l2 /\ Payment.ID p = id /\
       forall q, In q l1 -> Payment.ID q <> id) /\
  (forall id,
     FindPaymentByID id s = Err ErrPaymentNotFound <->
     forall p, In p (payments s) -> Payment.ID p <> id) /\
  (forall id f,
     FindFavoriteByID id s = Ok f <->
     exists l1 l2,
       favorites s = l1 ++ f :: l2 /\ Favorite.ID f = id /\
       forall g, In g l1 -> Favorite.ID g <> id) /\
  (forall id,
     FindFavoriteByID id s = Err ErrFavoriteNotFound <->
     forall f, In f (favorites s) -> Favorite.ID f <> id).
Proof.
  split; [|split; [|split; [|split; [|split]]]].
  - intros id a. rewrite FindAccountByID_Ok, find_first.
    split; intros (l1 & l2 & E & Hx & Hl); exists l1, l2;
      (split; [exact E|]); (split; [now apply is_account_true|]);
      intros b Hb; specialize (Hl b Hb).
    + apply Z.eqb_neq. exact Hl.
    + apply Z.eqb_neq. exact Hl.
  - intros id. rewrite FindAccountByID_Err. tauto.
  - intros id p. rewrite FindPaymentByID_Ok, find_first.
    split; intros (l1 & l2 & E & Hx & Hl); exists l1, l2;
      (split; [exact E|]); (split; [now apply is_payment_true|]);
      intros b Hb; specialize (Hl b Hb).
    + apply String.eqb_neq. exact Hl.
    + apply String.eqb_neq. exact Hl.
  - intros id. rewrite FindPaymentByID_Err. tauto.
  - intros id f. rewrite FindFavoriteByID_Ok, find_first.
    split; intros (l1 & l2 & E & Hx & Hl); exists l1, l2;
      (split; [exact E|]); (split; [now apply is_favorite_true|]);
      intros b Hb; specialize (Hl b Hb).
    + apply String.eqb_neq. exact Hl.
    + apply String.eqb_neq. exact Hl.
  - intros id. unfold FindFavoriteByID.
    destruct (find (is_favorite id) (favorites s)) as [f|] eqn:E; split.
    + discriminate.
    + intros H. apply find_some in E as [Hin Hhit].
      apply is_favorite_true in Hhit. now apply H in Hin.
    + intros _ f Hin Heq. apply (find_none _ _ E) in Hin.
      apply is_favorite_true in Heq. congruence.
    + reflexivity.
Qed.

Lemma lookups_first_match_witness :
  FindAccountByID 1 s_twins = Ok (Account.mk 1 "79000000001" 0) /\
  FindPaymentByID "u1" s_twins = Err ErrPaymentNotFound.
Proof.
  destruct (lookups_first_match s_twins) as (HA & _ & _ & HP & _).
  split.
  - apply HA. exists [], [Account.mk 1 "79000000001" 0].
    split; [reflexivity|]. split; [reflexivity|]. intros b [].
  - apply HP. simpl. intros p [].
Defined.

(** ** The legacy file, written and read back *)

Lemma records_concat_delim {A : Type} (delim : ascii) (text : A -> string)
    (l : list A) :
  Forall (fun x => contains delim (text x) = false) l ->
  records delim
    (String.concat ""
       (map (fun x => (text x ++ String delim "")%string) l))
  = map (fun x => (text x ++ String delim "")%string) l.
Proof.
  induction 1 as [|x l Hx Hl IH]; [reflexivity|].
  cbn [map]. rewrite concat_cons.
  rewrite append_assoc. cbn [String.append].
  rewrite records_app by exact Hx. now rewrite IH.
Qed.

Lemma FormatInt_bar (i : Z) : contains bar (FormatInt i) = false.
Proof. apply FormatInt_contains; [reflexivity|discriminate]. Qed.

Lemma ImportFromFile_record_written (a : Account.t) (s : Service) :
  legacy_dumpable a ->
  ImportFromFile_record (account_fields a ++ String bar "")%string s
  = (Ok tt, with_accounts (accounts s ++ [a]) s) /\
  contains bar (account_fields a) = false.
Proof.
  intros (Hid & Hb & Hsemi & Hbar). split.
  - unfold ImportFromFile_record, account_fields.
    cbn [String.append]. rewrite append_assoc. cbn [String.append].
    rewrite append_assoc. cbn [String.append].
    rewrite Split_app by apply FormatInt_semicolon.
    rewrite Split_app by exact Hsemi.
    rewrite Split_clean.
    2:{ rewrite contains_app, FormatInt_semicolon. reflexivity. }
    cbn [index nth_error bind]. rewrite TrimSuffix_app.
    rewrite (Atoi_FormatInt _ Hid), (Atoi_FormatInt _ Hb). cbn [bind].
    now destruct a.
  - unfold account_fields. cbn [String.append].
    rewrite contains_app. cbn [contains]. rewrite contains_app.
    cbn [contains]. rewrite !FormatInt_bar, Hbar. reflexivity.
Qed.

Lemma ImportFromFile_records_written (l : list Account.t) :
  forall s,
    Forall legacy_dumpable l ->
    for_each ImportFromFile_record
      (map (fun a => (account_fields a ++ String bar "")%string) l) s
    = (Ok tt, with_accounts (accounts s ++ l) s).
Proof.
  induction l as [|a l IH]; intros s Hd.
  - cbn [map for_each]. now rewrite with_accounts_same.
  - inversion Hd as [|? ? Ha Hl]; subst. cbn [map for_each].
    rewrite (proj1 (ImportFromFile_record_written a s Ha)).
    rewrite IH by exact Hl. unfold with_accounts.
    cbn [accounts nextAccountID payments favorites].
    now rewrite <- app_assoc.
Qed.

(** X6.  What [ExportToFile] writes, [ImportFromFile] reads back: when the
    numbers of the accounts are [int64] values and no phone holds [;] or
    [|], importing the exported file into any service succeeds and appends
    the exported accounts, all of them, in order and with the same fields,
    whether or not their IDs or phones are already there; the counter, the
    payments and the favorites of the importing service stay as they
    were. *)
Theorem ExportToFile_ImportFromFile (s s0 : Service) :
  Forall legacy_dumpable (accounts s) ->
  ImportFromFile (Some (ExportToFile s)) s0
  = (Ok tt,
     mkService (nextAccountID s0) (accounts s0 ++ accounts s) (payments s0)
       (favorites s0)).
Proof.
  intros Hd. unfold ImportFromFile, ExportToFile.
  change (fun account => (account_fields account ++ "|")%string)
    with (fun account => (account_fields account ++ String bar "")%string).
  rewrite records_concat_delim.
  - now rewrite ImportFromFile_records_written.
  - eapply Forall_impl; [|exact Hd]. intros a Ha.
    now apply ImportFromFile_record_written with (s := s0).
Qed.

Lemma ExportToFile_ImportFromFile_witness :
  ImportFromFile (Some (ExportToFile s_twins)) s_one
  = (Ok tt,
     mkService 1
       [Account.mk 1 "79000000001" 10000; Account.mk 1 "79000000001" 0;
        Account.mk 1 "79000000001" 0] [] []).
Proof.
  apply (ExportToFile_ImportFromFile s_twins s_one).
  unfold legacy_dumpable, int64, min_int64, max_int64.
  repeat constructor; cbn; lia.
Defined.

(** ** Importing what is already there *)

Lemma find_in_known {A : Type} (hit : A -> bool) (l : list A) (x : A) :
  In x l -> hit x = true -> find hit l <> None.
Proof.
  intros Hin Hx E. apply (find_none _ _ E) in Hin. congruence.
Qed.

Lemma Import_account_line_known (a : Account.t) (s : Service) :
  account_dumpable a ->
  find (is_account (Account.ID a)) (accounts s) <> None ->
  Import_account (account_line a) s = (Ok tt, s).
Proof.
  intros Hd Hknown. destruct (account_fields_Split a Hd) as [HS _].
  destruct Hd as (Hid & Hb & _).
  unfold Import_account, FindAccountByID. rewrite HS.
  cbn [index nth_error bind].
  rewrite (Atoi_FormatInt _ Hid), (Atoi_FormatInt _ Hb). cbn [bind].
  destruct (find _ _); [reflexivity|congruence].
Qed.

Lemma Import_payment_line_known (p : Payment.t) (s : Service) :
  payment_dumpable p ->
  find (is_payment (Payment.ID p)) (payments s) <> None ->
  Import_payment (payment_line p) s = (Ok tt, s).
Proof.
  intros Hd Hknown. destruct (payment_fields_Split p Hd) as [HS _].
  destruct Hd as (_ & Ha & Hm & _).
  unfold Import_payment, FindPaymentByID. rewrite HS.
  cbn [index nth_error bind].
  rewrite (Atoi_FormatInt _ Ha), (Atoi_FormatInt _ Hm). cbn [bind].
  destruct (find _ _); [reflexivity|congruence].
Qed.

Lemma Import_favorite_line_known (f : Favorite.t) (s : Service) :
  favorite_dumpable f ->
  find (is_favorite (Favorite.ID f)) (favorites s) <> None ->
  Import_favorite (favorite_line f) s = (Ok tt, s).
Proof.
  intros Hd Hknown. destruct (favorite_fields_Split f Hd) as [HS _].
  destruct Hd as (_ & Ha & _ & Hm & _).
  unfold Import_favorite, FindFavoriteByID. rewrite HS.
  cbn [index nth_error bind].
  rewrite (Atoi_FormatInt _ Ha), (Atoi_FormatInt _ Hm). cbn [bind].
  destruct (find _ _); [reflexivity|congruence].
Qed.

Lemma for_each_nothing {A : Type}
    (body : string -> Service -> outcome unit * Service)
    (line : A -> string) (l : list A) (s : Service) :
  (forall x, In x l -> body (line x) s = (Ok tt, s)) ->
  for_each body (map line l) s = (Ok tt, s).
Proof.
  induction l as [|x l IH]; intros H; [reflexivity|].
  cbn [map for_each]. rewrite (H x (or_introl eq_refl)).
  apply IH. intros y Hy. apply H. now right.
Qed.

(** X7.  [Import] never updates an entry it already holds.  Importing the
    export of a state [s] (numbers that are [int64] values, texts without
    [;] and newline) into a service that holds every ID of [s] succeeds and
    changes nothing, whatever balances, statuses and other fields the file
    carries; in particular a service that imports its own export stays as it
    is. *)
Theorem Import_known_export (s s' : Service) :
  Forall account_dumpable (accounts s) ->
  Forall payment_dumpable (payments s) ->
  Forall favorite_dumpable (favorites s) ->
  later_accounts s s' -> later_payments s s' -> later_favorites s s' ->
  Import (Export empty_dir s) s' = (Ok tt, s').
Proof.
  intros Hda Hdp Hdf La Lp Lf.
  rewrite Forall_forall in Hda, Hdp, Hdf.
  unfold Import, Export.
  cbn [accounts_dump payments_dump favorites_dump empty_dir].
  change account_line with (fun a => ln (account_fields a)).
  change payment_line with (fun p => ln (payment_fields p)).
  change favorite_line with (fun f => ln (favorite_fields f)).
  rewrite Import_file_dump_file.
  2:{ apply Forall_forall. intros a Ha. now apply account_fields_Split, Hda. }
  rewrite (for_each_nothing Import_account).
  2:{ intros a Ha. apply (Import_account_line_known a s' (Hda a Ha)).
      apply La. apply (find_in_known _ _ a Ha). apply Z.eqb_refl. }
  rewrite Import_file_dump_file.
  2:{ apply Forall_forall. intros p Hp. now apply payment_fields_Split, Hdp. }
  rewrite (for_each_nothing Import_payment).
  2:{ intros p Hp. apply (Import_payment_line_known p s' (Hdp p Hp)).
      apply Lp. apply (find_in_known _ _ p Hp). apply String.eqb_refl. }
  rewrite Import_file_dump_file.
  2:{ apply Forall_forall. intros f Hf. now apply favorite_fields_Split, Hdf. }
  rewrite (for_each_nothing Import_favorite).
  2:{ intros f Hf. apply (Import_favorite_line_known f s' (Hdf f Hf)).
      apply Lf. apply (find_in_known _ _ f Hf). apply String.eqb_refl. }
  reflexivity.
Qed.

Lemma Import_known_export_witness :
  Import (Export empty_dir s_ledger) s_ledger = (Ok tt, s_ledger).
Proof.
  destruct s_ledger_dumpable as (Ha & Hp & Hf & _).
  apply (Import_known_export s_ledger s_ledger Ha Hp Hf);
    intros id H; exact H.
Defined.

(** ** Imports only append *)

Lemma extends_refl {A : Type} (l : list A) : extends l l.
Proof. exists []. now rewrite app_nil_r. Qed.

Lemma extends_trans {A : Type} (l1 l2 l3 : list A) :
  extends l1 l2 -> extends l2 l3 -> extends l1 l3.
Proof.
  intros [t1 ->] [t2 ->]. exists (t1 ++ t2). now rewrite app_assoc.
Qed.

Lemma extends_snoc {A : Type} (l : list A) (x : A) : extends l (l ++ [x]).
Proof. now exists [x]. Qed.

Lemma extends_map {A B : Type} (f : A -> B) (l l' : list A) :
  extends l l' -> extends (map f l) (map f l').
Proof. intros [t ->]. exists (map f t). apply map_app. Qed.

Lemma grows_refl (s : Service) : grows s s.
Proof. repeat split; apply extends_refl. Qed.

Lemma grows_trans (s1 s2 s3 : Service) :
  grows s1 s2 -> grows s2 s3 -> grows s1 s3.
Proof.
  intros (A1 & P1 & F1) (A2 & P2 & F2).
  repeat split; eapply extends_trans; eassumption.
Qed.

Lemma Import_account_grows (r : string) (s : Service) :
  grows s (snd (Import_account r s)).
Proof.
  unfold Import_account.
  destruct (bind (index _ 0) _) as [[ID Balance]|e|p];
    cbn [snd]; try apply grows_refl.
  destruct (FindAccountByID ID s); try apply grows_refl;
    destruct (index _ 1); try apply grows_refl;
    (split; [apply extends_snoc|split; apply extends_refl]).
Qed.

Lemma Import_payment_grows (r : string) (s : Service) :
  grows s (snd (Import_payment r s)).
Proof.
  unfold Import_payment.
  destruct (bind (index _ 0) _) as [[[payID AccountID] Amount]|e|p];
    cbn [snd]; try apply grows_refl.
  destruct (FindPaymentByID payID s); try apply grows_refl;
    destruct (bind (index _ 3) _); try apply grows_refl;
    (split; [apply extends_refl|split; [apply extends_snoc|]]);
    apply extends_refl.
Qed.

Lemma Import_favorite_grows (r : string) (s : Service) :
  grows s (snd (Import_favorite r s)).
Proof.
  unfold Import_favorite.
  destruct (bind (index _ 0) _) as [[[favID AccountID] Amount]|e|p];
    cbn [snd]; try apply grows_refl.
  destruct (FindFavoriteByID favID s); try apply grows_refl;
    destruct (bind (index _ 2) _); try apply grows_refl;
    (split; [apply extends_refl|split; [apply extends_refl|]]);
    apply extends_snoc.
Qed.

Lemma Import_file_grows
    (body : string -> Service -> outcome unit * Service)
    (file : option string) (s : Service) :
  (forall r s, grows s (snd (body r s))) ->
  grows s (snd (Import_file body file s)).
Proof.
  intros Hbody.
  apply (Import_file_frame (fun s' => grows s s') body file s);
    [|apply grows_refl].
  intros r s' Hs'. eapply grows_trans; [exact Hs'|apply Hbody].
Qed.

Lemma Import_grows (dir : Dir) (s : Service) :
  grows s (snd (Import dir s)).
Proof.
  unfold Import.
  pose proof (Import_file_grows Import_account (accounts_dump dir) s
                Import_account_grows) as H1.
  destruct (Import_file Import_account (accounts_dump dir) s)
    as [[[]|e|p] s1]; cbn [snd] in *; try exact H1.
  pose proof (Import_file_grows Import_payment (payments_dump dir) s1
                Import_payment_grows) as H2.
  destruct (Import_file Import_payment (payments_dump dir) s1)
    as [[[]|e|p] s2]; cbn [snd] in *;
    try (eapply grows_trans; [exact H1|exact H2]).
  pose proof (Import_file_grows Import_favorite (favorites_dump dir) s2
                Import_favorite_grows) as H3.
  destruct (Import_file Import_favorite (favorites_dump dir) s2)
    as [[[]|e|p] s3]; cbn [snd] in *;
    (eapply grows_trans; [exact H1|]); (eapply grows_trans; [exact H2|]);
    exact H3.
Qed.

(** X8.  [Import] only appends.  However it ends (success, error in the
    middle of a file, panic), the accounts, the payments and the favorites
    the service held before are still there, unchanged and at the same
    places, followed by what was imported. *)
Theorem Import_only_appends (dir : Dir) (s : Service) :
  exists (la : list Account.t) (lp : list Payment.t) (lf : list Favorite.t),
    accounts (snd (Import dir s)) = accounts s ++ la /\
    payments (snd (Import dir s)) = payments s ++ lp /\
    favorites (snd (Import dir s)) = favorites s ++ lf.
Proof.
  destruct (Import_grows dir s) as ([la Ha] & [lp Hp] & [lf Hf]).
  exists la, lp, lf. repeat split; assumption.
Qed.

Lemma ImportFromFile_state (file : option string) (s : Service) :
  exists l,
    snd (ImportFromFile file s) = with_accounts (accounts s ++ l) s.
Proof.
  destruct file as [content|]; cbn [ImportFromFile].
  - destruct (ImportFromFile_appends (records bar content))
      as (l & o & _ & H).
    exists l. now rewrite H.
  - exists []. cbn [snd]. now rewrite with_accounts_same.
Qed.

(** X9.  [ImportFromFile] appends accounts and does nothing else, however
    it ends: the payments, the favorites and the counter are as before.
    The counter is not brought up to the imported IDs, so the next
    registration receives the successor of the old counter even when an
    imported account holds that ID. *)
Theorem ImportFromFile_frame (file : option string) (s : Service) :
  let s' := snd (ImportFromFile file s) in
  extends (accounts s) (accounts s') /\
  payments s' = payments s /\
  favorites s' = favorites s /\
  nextAccountID s' = nextAccountID s /\
  (forall phone,
     (forall a, In a (accounts s') -> Account.Phone a <> phone) ->
     fst (RegisterAccount phone s')
     = Ok (Account.mk (add64 (nextAccountID s) 1) phone 0)).
Proof.
  cbn zeta. destruct (ImportFromFile_state file s) as [l ->]. cbn [accounts payments favorites nextAccountID
                               with_accounts].
  split; [now exists l|]. repeat (split; [reflexivity|]).
  intros phone Hphone.
  now rewrite (RegisterAccount_new phone (with_accounts (accounts s ++ l) s)
                 Hphone).
Qed.

Lemma ImportFromFile_frame_witness :
  fst (RegisterAccount "79000000009"
         (snd (ImportFromFile (Some "1;79000000001;0|") fresh)))
  = Ok (Account.mk 1 "79000000009" 0).
Proof.
  apply (ImportFromFile_frame (Some "1;79000000001;0|") fresh).
  cbn. intros a [<-|[]]. cbn. discriminate.
Defined.

(** ** Nothing is ever deleted *)

Lemma map_update_first {A B : Type} (key : A -> B) (hit : A -> bool)
    (upd : A -> A) (l : list A) :
  (forall x, key (upd x) = key x) ->
  map key (update_first hit upd l) = map key l.
Proof.
  intros H. induction l as [|y l IH]; cbn [update_first map]; [reflexivity|].
  destruct (hit y); cbn [map]; [now rewrite H|now rewrite IH].
Qed.

Lemma keeps_refl (s : Service) : keeps s s.
Proof. repeat split; apply extends_refl. Qed.

Lemma keeps_trans (s1 s2 s3 : Service) :
  keeps s1 s2 -> keeps s2 s3 -> keeps s1 s3.
Proof.
  intros (A1 & P1 & F1) (A2 & P2 & F2).
  repeat split; eapply extends_trans; eassumption.
Qed.

Lemma grows_keeps (s s' : Service) : grows s s' -> keeps s s'.
Proof.
  intros (A & P & F). repeat split; [| |exact F]; now apply extends_map.
Qed.

Lemma extends_eq {A : Type} (l l' : list A) : l' = l -> extends l l'.
Proof. intros ->. apply extends_refl. Qed.

Lemma extends_map_snoc {A B : Type} (f : A -> B) (l : list A) (x : A) :
  extends (map f l) (map f (l ++ [x])).
Proof. apply extends_map, extends_snoc. Qed.

Lemma Pay_keeps (uid : string) (accountID : Z) (amount : Money)
    (category : PaymentCategory) (s : Service) :
  keeps s (snd (Pay uid accountID amount category s)).
Proof.
  unfold Pay. destruct (amount <=? 0); [apply keeps_refl|].
  destruct (find _ _); [|apply keeps_refl].
  destruct (_ <? _); [apply keeps_refl|].
  split; [|split]; cbn [snd accounts payments favorites with_accounts
                          with_payments].
  - apply extends_eq, map_update_first. reflexivity.
  - apply extends_map_snoc.
  - apply extends_refl.
Qed.

Lemma exec_keeps (o : op) (s : Service) : keeps s (snd (exec o s)).
Proof.
  destruct o; cbn [exec]; rewrite snd_returning.
  - unfold RegisterAccount. destruct (existsb _ _); [apply keeps_refl|].
    split; [apply extends_map_snoc|split; apply extends_refl].
  - unfold Deposit. destruct (amount <=? 0); [apply keeps_refl|].
    destruct (find _ _); [|apply keeps_refl].
    split; [|split; apply extends_refl].
    apply extends_eq, map_update_first. reflexivity.
  - apply Pay_keeps.
  - unfold Reject. destruct (FindPaymentByID _ s); try apply keeps_refl.
    destruct (FindAccountByID _ _);
      (split; [|split]);
      cbn [snd accounts payments favorites with_accounts with_payments];
      try apply extends_refl;
      apply extends_eq, map_update_first; reflexivity.
  - unfold Repeat. destruct (FindPaymentByID _ s); try apply keeps_refl.
    pose proof (Pay_keeps uid (Payment.AccountID a) (Payment.Amount a)
                  (Payment.Category a) s) as H.
    destruct (Pay _ _ _ _ s) as [[?|?|?] s']; exact H.
  - unfold FavoritePayment.
    destruct (FindPaymentByID _ s); try apply keeps_refl.
    split; [apply extends_refl|split; [apply extends_refl|]].
    apply extends_snoc.
  - unfold PayFromFavorite.
    destruct (FindFavoriteByID _ s); try apply keeps_refl.
    split; [apply extends_refl|split; [|apply extends_refl]].
    apply extends_map_snoc.
  - apply grows_keeps.
    destruct (ImportFromFile_state file s) as [l ->].
    split; [now exists l|]. split; apply extends_refl.
  - apply grows_keeps, Import_grows.
Qed.

Lemma run_keeps (ops : list op) (s : Service) :
  keeps s (snd (run ops s)).
Proof.
  revert s. induction ops as [|o ops IH]; intros s; [apply keeps_refl|].
  rewrite run_cons. cbn [snd].
  eapply keeps_trans; [apply exec_keeps|apply IH].
Qed.

(** X10.  No call deletes or renumbers anything.  After any sequence of
    calls, imports included, every account the service held is still at its
    place in the list with the same ID and phone, every payment with the same
    ID, account, amount and category, and every favorite with all its
    fields: only balances and statuses change, and entries are appended. *)
Theorem nothing_deleted (ops : list op) (s : Service) :
  let s' := snd (run ops s) in
  (exists t, map account_key (accounts s')
             = map account_key (accounts s) ++ t) /\
  (exists t, map payment_key (payments s')
             = map payment_key (payments s) ++ t) /\
  (exists t, favorites s' = favorites s ++ t).
Proof. exact (run_keeps ops s). Qed.

(** ** Services that never imported *)

Lemma find_account_In (id : Z) (l : list Account.t) :
  find (is_account id) l <> None <-> In id (map Account.ID l).
Proof.
  split.
  - destruct (find (is_account id) l) as [a|] eqn:E; [|congruence].
    intros _. apply find_some in E as [Hin Hhit].
    apply is_account_true in Hhit. rewrite <- Hhit. now apply in_map.
  - intros Hin. apply in_map_iff in Hin as (a & Ha & Hin).
    apply (find_in_known _ _ a Hin). now apply is_account_true.
Qed.

Lemma keeps_later_accounts (s s' : Service) :
  keeps s s' -> later_accounts s s'.
Proof.
  intros ([t Ht] & _) id H. apply find_account_In in H.
  apply find_account_In.
  assert (E : forall l, map Account.ID l = map fst (map account_key l)).
  { intros l. rewrite map_map. reflexivity. }
  rewrite E, Ht, map_app. apply in_or_app. left. now rewrite <- E.
Qed.

Lemma payment_linked_later (s s' : Service) (p : Payment.t) :
  later_accounts s s' -> payment_linked s p -> payment_linked s' p.
Proof. intros L (H1 & H2). split; [now apply L|exact H2]. Qed.

Lemma favorite_linked_later (s s' : Service) (f : Favorite.t) :
  later_accounts s s' -> favorite_linked s f -> favorite_linked s' f.
Proof. intros L (H1 & H2). split; [now apply L|exact H2]. Qed.

(** Entries that were linked stay linked when the accounts keep their IDs
    and each entry keeps its account and amount. *)
Lemma linked_step (s s' : Service) :
  later_accounts s s' ->
  Forall (payment_linked s') (payments s') ->
  Forall (favorite_linked s') (favorites s') ->
  linked s'.
Proof. intros _ Hp Hf. split; assumption. Qed.

Lemma Pay_linked (uid : string) (accountID : Z) (amount : Money)
    (category : PaymentCategory) (s : Service) :
  linked s ->
  linked (snd (Pay uid accountID amount category s)) /\
  is_panic (fst (Pay uid accountID amount category s)) = false.
Proof.
  intros (Hp & Hf).
  pose proof (keeps_later_accounts _ _
                (Pay_keeps uid accountID amount category s)) as L.
  revert L. unfold Pay.
  destruct (amount <=? 0) eqn:E; [intros _; repeat split; assumption|].
  destruct (find (is_account accountID) (accounts s)) as [a|] eqn:Ef;
    [|intros _; repeat split; assumption].
  destruct (_ <? _); [intros _; repeat split; assumption|].
  cbn [fst snd]. intros L. split; [|reflexivity]. split.
  - cbn [payments with_payments]. apply Forall_snoc.
    + eapply Forall_impl; [|exact Hp]. intros p. now apply payment_linked_later.
    + split; [|split].
      * apply L. cbn [Payment.AccountID]. rewrite Ef. discriminate.
      * apply Z.leb_gt in E. exact E.
      * now left.
  - cbn [favorites with_payments with_accounts].
    eapply Forall_impl; [|exact Hf]. intros f.
    now apply favorite_linked_later.
Qed.

Lemma FindPaymentByID_no_panic (id : string) (s : Service) (p : panic) :
  FindPaymentByID id s <> Panic p.
Proof. unfold FindPaymentByID. destruct (find _ _); discriminate. Qed.

Lemma FindFavoriteByID_no_panic (id : string) (s : Service) (p : panic) :
  FindFavoriteByID id s <> Panic p.
Proof. unfold FindFavoriteByID. destruct (find _ _); discriminate. Qed.

Ltac lookup_no_panic :=
  exfalso;
  first [ eapply FindPaymentByID_no_panic; eassumption
        | eapply FindFavoriteByID_no_panic; eassumption ].

Lemma exec_linked (o : op) (s : Service) :
  is_import o = false -> linked s ->
  linked (snd (exec o s)) /\ is_panic (fst (exec o s)) = false.
Proof.
  intros Ho Hs.
  pose proof (keeps_later_accounts _ _ (exec_keeps o s)) as L.
  pose proof Hs as (Hp & Hf).
  assert (Hp' : Forall (payment_linked (snd (exec o s))) (payments s)).
  { eapply Forall_impl; [|exact Hp]. intros p.
    now apply payment_linked_later. }
  assert (Hf' : Forall (favorite_linked (snd (exec o s))) (favorites s)).
  { eapply Forall_impl; [|exact Hf]. intros f.
    now apply favorite_linked_later. }
  clear L. revert Hp' Hf'.
  destruct o; try discriminate; cbn [exec].
  - unfold RegisterAccount. destruct (existsb _ _); cbn [returning snd fst];
      intros Hp' Hf'; (split; [split; assumption|reflexivity]).
  - unfold Deposit. destruct (amount <=? 0); cbn [returning snd fst];
      [intros Hp' Hf'; split; [split; assumption|reflexivity]|].
    destruct (find _ _); cbn [returning snd fst];
      intros Hp' Hf'; (split; [split; assumption|reflexivity]).
  - intros _ _.
    destruct (Pay_linked uid accountID amount category s Hs) as [H1 H2].
    destruct (Pay uid accountID amount category s) as [[?|?|?] s'];
      cbn [returning fst snd] in *; (split; [exact H1|]);
      first [reflexivity|exact H2].
  - unfold Reject.
    destruct (FindPaymentByID paymentID s) as [p| |] eqn:Ep;
      cbn [returning snd fst];
      try (intros Hp' Hf'; split; [split; assumption|reflexivity]);
      try lookup_no_panic.
    rewrite FindAccountByID_with_payments.
    apply FindPaymentByID_Ok in Ep.
    destruct (find_Forall _ _ _ _ Hp Ep) as (Hacc & _).
    unfold FindAccountByID.
    destruct (find (is_account (Payment.AccountID p)) (accounts s))
      as [a|]; [|congruence].
    cbn [returning snd fst]. intros Hp' Hf'. split; [|reflexivity].
    split; [|exact Hf'].
    cbn [payments with_accounts with_payments].
    apply Forall_update_first; [exact Hp'|].
    intros x _ _ (H1 & H2 & _). split; [exact H1|]. split; [exact H2|].
    now right.
  - intros _ _. unfold Repeat.
    destruct (FindPaymentByID paymentID s) as [p| |] eqn:Ep;
      cbn [returning snd fst]; try (split; [exact Hs|reflexivity]);
      try lookup_no_panic.
    destruct (Pay_linked uid (Payment.AccountID p) (Payment.Amount p)
                (Payment.Category p) s Hs) as [H1 H2].
    destruct (Pay _ _ _ _ s) as [[?|?|?] s'];
      cbn [returning fst snd] in *; (split; [exact H1|]);
      first [reflexivity|exact H2].
  - unfold FavoritePayment.
    destruct (FindPaymentByID paymentID s) as [p| |] eqn:Ep;
      cbn [returning snd fst];
      try (intros Hp' Hf'; split; [split; assumption|reflexivity]);
      try lookup_no_panic.
    apply FindPaymentByID_Ok in Ep.
    destruct (find_Forall _ _ _ _ Hp Ep) as (Hacc & Hamt & _).
    intros Hp' Hf'. split; [|reflexivity]. split; [exact Hp'|].
    cbn [favorites with_favorites]. apply Forall_snoc; [exact Hf'|].
    split; [exact Hacc|exact Hamt].
  - unfold PayFromFavorite.
    destruct (FindFavoriteByID favoriteID s) as [f| |] eqn:Ef;
      cbn [returning snd fst];
      try (intros Hp' Hf'; split; [split; assumption|reflexivity]);
      try lookup_no_panic.
    apply FindFavoriteByID_Ok in Ef.
    destruct (find_Forall _ _ _ _ Hf Ef) as (Hacc & Hamt).
    intros Hp' Hf'. split; [|reflexivity]. split; [|exact Hf'].
    cbn [payments with_payments]. apply Forall_snoc; [exact Hp'|].
    split; [exact Hacc|]. split; [exact Hamt|now left].
Qed.

Lemma run_linked (ops : list op) (s : Service) :
  import_free ops = true -> linked s ->
  linked (snd (run ops s)) /\
  Forall (fun r => is_panic r = false) (fst (run ops s)).
Proof.
  revert s. induction ops as [|o ops IH]; intros s Hfree Hs.
  - split; [exact Hs|constructor].
  - cbn [import_free forallb] in Hfree.
    apply andb_true_iff in Hfree as [Ho Hfree].
    apply negb_true_iff in Ho.
    destruct (exec_linked o s Ho Hs) as [H1 H2].
    destruct (IH (snd (exec o s)) Hfree H1) as [H3 H4].
    rewrite run_cons. cbn [fst snd]. split; [exact H3|].
    constructor; assumption.
Qed.

Lemma fresh_linked : linked fresh.
Proof. split; constructor. Qed.

(** X11.  In a service that never imported, every payment and every
    favorite belongs to an account the service holds and has an amount above
    zero, and every payment is [INPROGRESS] or [FAIL]: no call sets the
    status [OK]. *)
Theorem import_free_linked (ops : list op) :
  import_free ops = true -> linked (snd (run ops fresh)).
Proof. intros H. exact (proj1 (run_linked ops fresh H fresh_linked)). Qed.

Lemma import_free_linked_witness : linked (snd (run ops_shop fresh)).
Proof. apply (import_free_linked ops_shop). reflexivity. Defined.



(** ** Numbering of the accounts *)

Lemma exec_accounts_step (o : op) (s : Service) :
  is_import o = false ->
  (map account_key (accounts (snd (exec o s)))
   = map account_key (accounts s) /\
   nextAccountID (snd (exec o s)) = nextAccountID s) \/
  (exists phone,
     (forall a, In a (accounts s) -> Account.Phone a <> phone) /\
     map account_key (accounts (snd (exec o s)))
     = map account_key (accounts s) ++ [(add64 (nextAccountID s) 1, phone)] /\
     nextAccountID (snd (exec o s)) = add64 (nextAccountID s) 1).
Proof.
  destruct o; cbn [exec is_import]; intros Hi; try discriminate;
    rewrite snd_returning.
  - unfold RegisterAccount.
    destruct (existsb (has_phone phone) (accounts s)) eqn:E; cbn [snd].
    + left. split; reflexivity.
    + right. exists phone. split.
      * intros a Hin Heq.
        assert (Hex : existsb (has_phone phone) (accounts s) = true)
          by (apply existsb_has_phone; now exists a).
        congruence.
      * split; [|reflexivity].
        cbn [accounts with_accounts with_nextAccountID].
        now rewrite map_app.
  - left. unfold Deposit. destruct (_ <=? _); [split; reflexivity|].
    destruct (find _ _); [|split; reflexivity].
    split; [|reflexivity]. apply map_update_first. reflexivity.
  - left. unfold Pay. destruct (_ <=? _); [split; reflexivity|].
    destruct (find _ _); [|split; reflexivity].
    destruct (_ <? _); [split; reflexivity|].
    split; [|reflexivity]. apply map_update_first. reflexivity.
  - left. unfold Reject. destruct (FindPaymentByID _ _);
      try (split; reflexivity).
    destruct (FindAccountByID _ _); try (split; reflexivity).
    split; [|reflexivity]. apply map_update_first. reflexivity.
  - left. unfold Repeat. destruct (FindPaymentByID _ _);
      try (split; reflexivity).
    unfold Pay. destruct (_ <=? _); [split; reflexivity|].
    destruct (find _ _); [|split; reflexivity].
    destruct (_ <? _); [split; reflexivity|].
    split; [|reflexivity]. apply map_update_first. reflexivity.
  - left. unfold FavoritePayment. destruct (FindPaymentByID _ _);
      split; reflexivity.
  - left. unfold PayFromFavorite. destruct (FindFavoriteByID _ _);
      split; reflexivity.
Qed.

Lemma map_key_ID (l : list Account.t) :
  map Account.ID l = map fst (map account_key l).
Proof. now rewrite map_map. Qed.

Lemma map_key_Phone (l : list Account.t) :
  map Account.Phone l = map snd (map account_key l).
Proof. now rewrite map_map. Qed.

Lemma map_key_length (l l' : list Account.t) :
  map account_key l' = map account_key l -> List.length l' = List.length l.
Proof.
  intros H. apply (f_equal (@List.length _)) in H.
  now rewrite !length_map in H.
Qed.

Lemma run_phones (ops : list op) (s : Service) :
  import_free ops = true ->
  NoDup (map Account.Phone (accounts s)) ->
  NoDup (map Account.Phone (accounts (snd (run ops s)))).
Proof.
  revert s. induction ops as [|o ops IH]; intros s Hfree Hs; [exact Hs|].
  cbn [import_free forallb] in Hfree.
  apply andb_true_iff in Hfree as [Ho Hfree]. apply negb_true_iff in Ho.
  rewrite run_cons. cbn [snd]. apply IH; [exact Hfree|].
  destruct (exec_accounts_step o s Ho) as [[Hk _]|(phone & Hnew & Hk & _)];
    rewrite map_key_Phone, Hk.
  - now rewrite <- map_key_Phone.
  - rewrite map_app, <- map_key_Phone. cbn [map snd].
    apply NoDup_snoc; [exact Hs|].
    intros Hin. apply in_map_iff in Hin as (a & Ha & Hin).
    exact (Hnew a Hin Ha).
Qed.

Lemma exec_counted (o : op) (s : Service) :
  is_import o = false ->
  Z.of_nat (List.length (accounts (snd (exec o s)))) <= max_int64 ->
  counted s -> counted (snd (exec o s)).
Proof.
  intros Ho Hmax (Hn & Hids). unfold counted.
  destruct (exec_accounts_step o s Ho) as [[Hk Hc]|(phone & _ & Hk & Hc)].
  - rewrite Hc, map_key_ID, Hk, <- map_key_ID, (map_key_length _ _ Hk).
    split; assumption.
  - assert (Hlen : List.length (accounts (snd (exec o s)))
                   = S (List.length (accounts s))).
    { apply (f_equal (@List.length _)) in Hk.
      rewrite length_app, !length_map in Hk. cbn [List.length] in Hk. lia. }
    rewrite Hlen in *.
    assert (Hnext : add64 (nextAccountID s) 1
                    = Z.of_nat (S (List.length (accounts s)))).
    { unfold add64. rewrite wrap64_small.
      - lia.
      - unfold int64, min_int64, max_int64 in *. lia. }
    rewrite Hc, Hnext. split; [reflexivity|].
    rewrite map_key_ID, Hk, map_app, <- map_key_ID, Hids.
    cbn [map fst]. rewrite Hnext, seq_S, map_app. reflexivity.
Qed.

Lemma keeps_length (s s' : Service) :
  keeps s s' -> (List.length (accounts s) <= List.length (accounts s'))%nat.
Proof.
  intros ([t Ht] & _). apply (f_equal (@List.length _)) in Ht.
  rewrite length_app, !length_map in Ht. lia.
Qed.

Lemma run_counted (ops : list op) (s : Service) :
  import_free ops = true ->
  Z.of_nat (List.length (accounts (snd (run ops s)))) <= max_int64 ->
  counted s -> counted (snd (run ops s)).
Proof.
  revert s. induction ops as [|o ops IH]; intros s Hfree Hmax Hs;
    [exact Hs|].
  cbn [import_free forallb] in Hfree.
  apply andb_true_iff in Hfree as [Ho Hfree]. apply negb_true_iff in Ho.
  rewrite run_cons in *. cbn [snd] in *.
  apply IH; [exact Hfree|exact Hmax|].
  apply exec_counted; [exact Ho| |exact Hs].
  pose proof (keeps_length _ _ (run_keeps ops (snd (exec o s)))). lia.
Qed.

Lemma NoDup_map_injective {A B : Type} (f : A -> B) (l : list A) :
  (forall x y, f x = f y -> x = y) -> NoDup l -> NoDup (map f l).
Proof.
  intros Hinj. induction 1 as [|x l Hx Hl IH]; cbn [map]; constructor.
  - intros Hin. apply in_map_iff in Hin as (y & Hy & Hin).
    apply Hinj in Hy. now subst y.
  - exact IH.
Qed.

(** X13.  In a service that never imported, no phone is registered twice,
    and, as long as there are at most [2^63 - 1] accounts, the accounts
    carry the IDs 1, 2, ..., n in the order of their registration, the
    counter stands at n, and so no ID occurs twice. *)
Theorem accounts_numbered (ops : list op) :
  import_free ops = true ->
  let s := snd (run ops fresh) in
  let n := List.length (accounts s) in
  NoDup (map Account.Phone (accounts s)) /\
  (Z.of_nat n <= max_int64 ->
   nextAccountID s = Z.of_nat n /\
   map Account.ID (accounts s) = map Z.of_nat (seq 1 n) /\
   NoDup (map Account.ID (accounts s))).
Proof.
  intros Hfree s n. split.
  - apply run_phones; [exact Hfree|constructor].
  - intros Hmax.
    destruct (run_counted ops fresh Hfree Hmax) as [Hn Hids];
      [split; reflexivity|].
    split; [exact Hn|]. split; [exact Hids|].
    fold s in Hids. rewrite Hids.
    apply NoDup_map_injective; [|apply seq_NoDup].
    intros x y. apply Nat2Z.inj.
Qed.

Lemma accounts_numbered_witness :
  map Account.ID (accounts (snd (run ops_shop fresh))) = [1; 2] /\
  nextAccountID (snd (run ops_shop fresh)) = 2.
Proof.
  destruct (accounts_numbered ops_shop eq_refl) as [_ H].
  destruct H as (Hn & Hids & _).
  - vm_compute. discriminate.
  - split; [exact Hids|exact Hn].
Defined.

(** ** The test helper *)

Lemma total_nonneg (items : list (Money * PaymentCategory)) :
  Forall (fun item => 0 < fst item) items -> 0 <= total items.
Proof.
  induction 1 as [|item items Hpos _ IH]; cbn [total fold_right]; [lia|].
  fold (total items). lia.
Qed.

(** The payments of [pay_each] all succeed when the amounts are positive
    and their sum is within the balance. *)
Lemma pay_each_ok (draw : nat -> string) (accountID : Z)
    (items : list (Money * PaymentCategory)) :
  forall (i : nat) (s : Service) (account : Account.t),
    FindAccountByID accountID s = Ok account ->
    Forall (fun item => 0 < fst item) items ->
    total items <= Account.Balance account <= max_int64 ->
    exists l s',
      pay_each draw i accountID items s = (Ok l, s') /\
      FindAccountByID accountID s'
      = Ok (Account.with_Balance (Account.Balance account - total items)
              account) /\
      (forall id, id <> accountID ->
       FindAccountByID id s' = FindAccountByID id s) /\
      List.length (accounts s') = List.length (accounts s) /\
      payments s' = payments s ++ l /\
      map (fun p => (Payment.AccountID p, Payment.Amount p,
                     Payment.Category p, Payment.Status p)) l
      = map (fun item => (accountID, fst item, snd item,
                          PaymentStatusInProgress)) items.
Proof.
  induction items as [|[amount category] items IH];
    intros i s account Hf Hpos Hb.
  - exists [], s. cbn [pay_each total fold_right map].
    rewrite Z.sub_0_r, app_nil_r.
    repeat split; auto. rewrite Hf. now destruct account.
  - inversion Hpos as [|? ? Ha Hrest]; subst. cbn [fst] in Ha.
    pose proof (total_nonneg items Hrest) as Ht.
    cbn [total fold_right fst] in Hb. fold (total items) in Hb.
    destruct (Pay_success (draw i) accountID amount category s account Ha Hf)
      as (HP & HA & HO & _); [lia|].
    assert (Hsub : sub64 (Account.Balance account) amount
                   = Account.Balance account - amount).
    { apply wrap64_small. unfold int64, min_int64, max_int64 in *. lia. }
    rewrite Hsub in *.
    set (debited := Account.with_Balance (Account.Balance account - amount)
                      account) in *.
    set (s1 := with_payments _ _) in *.
    destruct (IH (S i) s1 debited HA Hrest) as (l & s' & HE & HA' & HO' & HL & HPs & HM).
    { cbn [debited Account.Balance Account.with_Balance]. lia. }
    eexists. exists s'. cbn [pay_each]. rewrite HP, HE.
    split; [reflexivity|]. split.
    { rewrite HA'. cbn [debited Account.Balance Account.with_Balance
                          Account.ID Account.Phone total fold_right fst].
      fold (total items). unfold Account.with_Balance. cbn.
      do 2 f_equal. lia. }
    split.
    { intros id Hid. rewrite (HO' id Hid). exact (HO id Hid). }
    split.
    { rewrite HL. cbn [s1 accounts with_payments with_accounts].
      apply update_first_length. }
    split.
    { rewrite HPs. cbn [s1 payments with_payments].
      now rewrite <- app_assoc. }
    cbn [map fst snd Payment.AccountID Payment.Amount Payment.Category
           Payment.Status]. now rewrite HM.
Qed.

(** X14.  On a fresh service, [addAccount] with a positive balance that is
    an [int64] and payments of positive amounts whose sum is within the
    balance succeeds: the account it returns has the ID 1, the phone and the
    balance less the sum of the payments, the lookup by its ID finds this
    very account, every other ID is not found, and the payments returned
    are those of the data, in order, all [INPROGRESS]. *)
Theorem addAccount_fresh (draw : nat -> string) (data : testAccount.t) :
  0 < testAccount.balance data <= max_int64 ->
  Forall (fun item => 0 < fst item) (testAccount.payments data) ->
  total (testAccount.payments data) <= testAccount.balance data ->
  let account :=
    Account.mk 1 (testAccount.phone data)
      (testAccount.balance data - total (testAccount.payments data)) in
  exists l s',
    addAccount draw data fresh = (Added account l, s') /\
    FindAccountByID (Account.ID account) s' = Ok account /\
    (forall id, id <> 1 -> FindAccountByID id s' = Err ErrAccountNotFound) /\
    payments s' = l /\
    map (fun p => (Payment.AccountID p, Payment.Amount p,
                   Payment.Category p, Payment.Status p)) l
    = map (fun item => (1, fst item, snd item, PaymentStatusInProgress))
        (testAccount.payments data).
Proof.
  intros Hb Hpos Htotal account.
  set (deposited := Account.mk 1 (testAccount.phone data)
                      (testAccount.balance data)).
  set (s2 := mkService 1 [deposited] [] []).
  assert (Hdep : Deposit 1 (testAccount.balance data)
                   (mkService 1 [Account.mk 1 (testAccount.phone data) 0]
                      [] [])
                 = (Ok tt, s2)).
  { unfold Deposit.
    assert (E : (testAccount.balance data <=? 0) = false)
      by (apply Z.leb_gt; lia).
    rewrite E. cbn [accounts find is_account Account.ID Z.eqb Pos.eqb
                      update_first with_accounts nextAccountID payments
                      favorites Account.Balance Account.with_Balance
                      Account.Phone].
    unfold s2, deposited, add64. rewrite Z.add_0_l, wrap64_small.
    - reflexivity.
    - unfold int64, min_int64, max_int64 in *. lia. }
  destruct (pay_each_ok draw 1 (testAccount.payments data) 0 s2 deposited)
    as (l & s' & HE & HA & HO & HL & HPs & HM);
    [reflexivity | exact Hpos | cbn [deposited Account.Balance]; lia | ].
  cbn [deposited Account.Balance Account.with_Balance Account.ID
         Account.Phone] in HA. fold account in HA.
  assert (Hacc : accounts s' = [account]).
  { cbn [s2 accounts List.length] in HL.
    apply FindAccountByID_Ok in HA.
    destruct (accounts s') as [|x [|y r]]; try discriminate.
    cbn [find] in HA. destruct (is_account 1 x); [|discriminate].
    now injection HA as ->. }
  exists l, s'. split.
  { assert (Hreg : RegisterAccount (testAccount.phone data) fresh
                   = (Ok (Account.mk 1 (testAccount.phone data) 0),
                      mkService 1 [Account.mk 1 (testAccount.phone data) 0]
                        [] [])) by reflexivity.
    unfold addAccount. rewrite Hreg. cbn [Account.ID].
    rewrite Hdep, HE, Hacc. reflexivity. }
  split; [exact HA|]. split.
  { intros id Hid. rewrite (HO id Hid).
    unfold FindAccountByID, s2, deposited, is_account.
    cbn [accounts find Account.ID].
    apply Z.eqb_neq in Hid. rewrite Z.eqb_sym, Hid. reflexivity. }
  split; [exact HPs|exact HM].
Qed.

Lemma addAccount_fresh_witness :
  exists l s',
    addAccount (fun _ => "u") defaultTestAccount fresh
    = (Added (Account.mk 1 "992000000001" 999999900000) l, s') /\
    FindAccountByID 1 s' = Ok (Account.mk 1 "992000000001" 999999900000).
Proof.
  destruct (addAccount_fresh (fun _ => "u") defaultTestAccount)
    as (l & s' & H1 & H2 & _).
  - unfold max_int64. cbn. lia.
  - repeat constructor.
  - cbn. lia.
  - exists l, s'. split; [exact H1|exact H2].
Defined.
